(** * JSON:API standard parameters (pagination, sorting, filtering)

    A shallow embedding of [http/jsonapi/runtime/standart_params.go]:
    the three request parsers [PaginationFromRequest], [SortingFromRequest],
    [FilterFromRequest] and their composition
    [FilterPagingSortingFromRequest].

    Modelling choices.
    - Go strings are byte strings: [string] (a list of [ascii]).
    - Go's [int] is taken as the 64-bit two's-complement integer of the
      usual targets; values live in [Z] and arithmetic wraps through
      [wrapInt].
    - [url.Values] and the local [filter] map are Go maps: [gmap string _].
      The order in which [range] visits a Go map is unspecified; it is a
      parameter [rangeOrder] of the development, constrained only to
      enumerate the entries of the map.
    - [*orm.Query] is an opaque builder owned by go-pg, mutated in place.  A
      query is represented by the sequence of effects performed on it so
      far; a [QueryOption] threads that sequence.  The stray [fmt.Printf]
      of the filter closure is kept as an effect of its own.
    - a nil func value is [None]; calling it panics. *)

From Stdlib Require Import ZArith Lia String Ascii List.
From stdpp Require Import base option list gmap strings fin_maps.

Open Scope string_scope.
Open Scope Z_scope.
Open Scope list_scope.

(** ** Go's [int] *)

Definition intSize : Z := 64.
Definition maxInt : Z := 2 ^ (intSize - 1) - 1.
Definition minInt : Z := - 2 ^ (intSize - 1).

(** Two's-complement reduction of an exact result to [int]. *)
Definition wrapInt (z : Z) : Z :=
  (z + 2 ^ (intSize - 1)) mod 2 ^ intSize - 2 ^ (intSize - 1).

Definition inInt (z : Z) : Prop := minInt <= z <= maxInt.

Definition int_mul (a b : Z) : Z := wrapInt (a * b).
Definition int_sub (a b : Z) : Z := wrapInt (a - b).

(** ** Errors

    [fmt.Errorf] values are kept as the format string and its operands;
    [strconv] failures as the [*NumError] they are. *)

Inductive fmtArg : Type :=
| ArgInt (n : Z)
| ArgStr (s : string).

Inductive numErr : Type := ErrSyntax | ErrRange.

Inductive error : Type :=
| NumError (func num : string) (err : numErr)
| Errorf (format : string) (args : list fmtArg).

Inductive result (A : Type) : Type :=
| Ok (a : A)
| Err (e : error).
Arguments Ok {A} a.
Arguments Err {A} e.

(** ** Package [strings], for the calls this file makes *)

Module strings.

(** [strings.HasPrefix(s, prefix)] *)
Fixpoint HasPrefix (s prefix : string) : bool :=
  match prefix, s with
  | EmptyString, _ => true
  | String _ _, EmptyString => false
  | String p prefix', String c s' =>
      if Ascii.eqb c p then HasPrefix s' prefix' else false
  end.

Fixpoint drop (n : nat) (s : string) : string :=
  match n, s with
  | O, _ => s
  | S _, EmptyString => EmptyString
  | S n', String _ s' => drop n' s'
  end.

Fixpoint take (n : nat) (s : string) : string :=
  match n, s with
  | O, _ => EmptyString
  | S _, EmptyString => EmptyString
  | S n', String c s' => String c (take n' s')
  end.

(** [strings.HasSuffix(s, suffix)]:
    [len(s) >= len(suffix) && s[len(s)-len(suffix):] == suffix] *)
Definition HasSuffix (s suffix : string) : bool :=
  (String.length suffix <=? String.length s)%nat
  && String.eqb (drop (String.length s - String.length suffix) s) suffix.

(** [strings.TrimPrefix(s, prefix)]: one leading [prefix] removed. *)
Definition TrimPrefix (s prefix : string) : string :=
  if HasPrefix s prefix then drop (String.length prefix) s else s.

(** [strings.TrimSuffix(s, suffix)]: one trailing [suffix] removed. *)
Definition TrimSuffix (s suffix : string) : string :=
  if HasSuffix s suffix
  then take (String.length s - String.length suffix) s
  else s.

(** [strings.Split(s, sep)] for a one-byte separator, which is the only
    use made of it ([","]).  The result is never empty: [Split("", ",")]
    is [[""]]. *)
Fixpoint Split (s : string) (sep : ascii) : list string :=
  match s with
  | EmptyString => [EmptyString]
  | String c s' =>
      if Ascii.eqb c sep then EmptyString :: Split s' sep
      else match Split s' sep with
           | [] => [String c EmptyString]
           | w :: ws => String c w :: ws
           end
  end.

(** [strings.Join(elems, sep)] *)
Fixpoint Join (elems : list string) (sep : string) : string :=
  match elems with
  | [] => EmptyString
  | [e] => e
  | e :: elems' => e +:+ sep +:+ Join elems' sep
  end.

End strings.

(** ** Package [strconv] *)

Module strconv.

Definition isDigit (c : ascii) : bool :=
  let n := Z.of_N (N_of_ascii c) in (48 <=? n) && (n <=? 57).

Definition digitVal (c : ascii) : Z := Z.of_N (N_of_ascii c) - 48.

(** The digit loop of [ParseUint(s, 10, 64)]: a byte that is no digit is a
    syntax error, a prefix whose value leaves [uint64] a range error,
    whichever is met first. *)
Fixpoint parseDigits (s : string) (n : Z) : Z + numErr :=
  match s with
  | EmptyString => inl n
  | String c s' =>
      if isDigit c then
        let n1 := n * 10 + digitVal c in
        if 2 ^ 64 - 1 <? n1 then inr ErrRange else parseDigits s' n1
      else inr ErrSyntax
  end.

(** [strconv.Atoi(s)]: an optional sign, then at least one decimal digit,
    with a value that fits [int]. *)
Definition Atoi (s : string) : result Z :=
  let fail k := Err (NumError "Atoi" s k) in
  match s with
  | EmptyString => fail ErrSyntax
  | String c s' =>
      let neg := Ascii.eqb c "-" in
      let digits := if neg || Ascii.eqb c "+" then s' else s in
      match digits with
      | EmptyString => fail ErrSyntax
      | _ =>
          match parseDigits digits 0 with
          | inr k => fail k
          | inl un =>
              if neg then
                if 2 ^ 63 <? un then fail ErrRange else Ok (- un)
              else
                if 2 ^ 63 <=? un then fail ErrRange else Ok un
          end
      end
  end.

End strconv.

(** ** The query object and query options *)

(** The second operand of [query.Where]: a single value, or [pg.In(slice)]. *)
Inductive whereParam (V : Type) : Type :=
| Value (v : V)
| In (vs : list V).
Arguments Value {V} v.
Arguments In {V} vs.

(** What a [QueryOption] of this file does to the world: the four builder
    methods it calls on the query, and the [fmt.Printf] of the filter
    closure. *)
Inductive effect (V : Type) : Type :=
| Offset (n : Z)
| Limit (n : Z)
| Order (s : string)
| Where (condition : string) (param : whereParam V)
| Printf (format : string) (name : string) (v : V).
Arguments Offset {V} n.
Arguments Limit {V} n.
Arguments Order {V} s.
Arguments Where {V} condition param.
Arguments Printf {V} format name v.

(** The query, as the effects applied to it so far (oldest first). *)
Definition Query (V : Type) : Type := list (effect V).

(** A call either returns the (mutated) query or panics, leaving the query
    as it was mutated up to then. *)
Inductive outcome (V : Type) : Type :=
| Returns (query : Query V)
| Panics (query : Query V).
Arguments Returns {V} query.
Arguments Panics {V} query.

Definition andThen {V} (o : outcome V) (f : Query V -> outcome V) : outcome V :=
  match o with
  | Returns q => f q
  | Panics q => Panics q
  end.

(** [type QueryOption func(query *orm.Query) *orm.Query]; [None] is nil. *)
Definition QueryOption (V : Type) : Type := option (Query V -> outcome V).

(** Calling a func value; a nil one panics. *)
Definition call {V} (o : QueryOption V) (query : Query V) : outcome V :=
  match o with
  | Some f => f query
  | None => Panics query
  end.

(** The last [Offset] and [Limit] set on a query, if any. *)
Fixpoint offsetOf {V} (q : Query V) : option Z :=
  match q with
  | [] => None
  | e :: q' =>
      match offsetOf q' with
      | Some n => Some n
      | None => match e with Offset n => Some n | _ => None end
      end
  end.

Fixpoint limitOf {V} (q : Query V) : option Z :=
  match q with
  | [] => None
  | e :: q' =>
      match limitOf q' with
      | Some n => Some n
      | None => match e with Limit n => Some n | _ => None end
      end
  end.

(** ** Configuration, request, capabilities *)

Record config : Type := {
  MaxPageSize : Z;
  MinPageSize : Z
}.

(** The [envDefault] values. *)
Definition defaultConfig : config := {| MaxPageSize := 100; MinPageSize := 1 |}.

(** A request, as far as this file reads it: [r.URL.Query()]. *)
Record Request : Type := {
  URL_Query : gmap string (list string)
}.

(** [url.Values.Get]: the first value of the key, [""] when there is none. *)
Definition Get (v : gmap string (list string)) (key : string) : string :=
  match v !! key with
  | Some (x :: _) => x
  | _ => ""
  end.

Class ValueSanitizer (S V : Type) : Type :=
  SanitizeValue : S -> string -> string -> result V.

Class ColumnMapper (M : Type) : Type :=
  Map : M -> string -> string * bool.

Record MapMapper : Type := {
  mapping : gmap string string
}.

Definition NewMapMapper (mapping : gmap string string) : MapMapper :=
  {| mapping := mapping |}.

(** A Go map lookup with the comma-ok form: the zero value when missing. *)
#[export] Instance MapMapper_Map : ColumnMapper MapMapper :=
  fun m value =>
    match mapping m !! value with
    | Some val => (val, true)
    | None => ("", false)
    end.

(** ** The parsers *)

Section Runtime.

Context {V M S : Type} `{!ColumnMapper M} `{!ValueSanitizer S V}.

(** The package variable [cfg]. *)
Variable cfg : config.

(** The order in which a [range] loop visits a map. *)
Variable rangeOrder : forall A : Type, gmap string A -> list (string * A).

Definition nop : Query V -> outcome V := fun query => Returns query.

Definition PaginationFromRequest (r : Request) : QueryOption V * option error :=
  let pageStr := Get (URL_Query r) "page[number]" in
  let sizeStr := Get (URL_Query r) "page[size]" in
  if String.eqb pageStr "" || String.eqb sizeStr "" then (Some nop, None)
  else
    match strconv.Atoi pageStr with
    | Err err => (None, Some err)
    | Ok pageNr =>
        match strconv.Atoi sizeStr with
        | Err err => (None, Some err)
        | Ok pageSize =>
            if (pageSize <? MinPageSize cfg) || (MaxPageSize cfg <? pageSize)
            then (None,
                  Some (Errorf "invalid pagesize not between min. and max. value, min: %d, max: %d"
                          [ArgInt (MinPageSize cfg); ArgInt (MaxPageSize cfg)]))
            else
              (Some (fun query =>
                       let query :=
                         if pageNr =? 0 then query ++ [Offset 0]
                         else query ++ [Offset (int_sub (int_mul pageSize pageNr) 1)] in
                       let query := query ++ [Limit pageSize] in
                       Returns query),
               None)
        end
    end.

(** One turn of the loop over the sort tokens; the state is
    [(resultedOrders, errSortingWithReason)]. *)
Definition sortingStep (modelMapping : M)
    (st : list string * list string) (val : string) : list string * list string :=
  let '(resultedOrders, errSortingWithReason) := st in
  if String.eqb val "" then st
  else
    let order := if strings.HasPrefix val "-" then " DESC" else " ASC" in
    let val := strings.TrimPrefix val "-" in
    let '(key, isValid) := Map modelMapping val in
    if negb isValid then (resultedOrders, errSortingWithReason ++ [val])
    else (resultedOrders ++ [key +:+ order], errSortingWithReason).

Definition SortingFromRequest (r : Request) (modelMapping : M)
  : QueryOption V * option error :=
  let sort := Get (URL_Query r) "sort" in
  if String.eqb sort "" then (Some nop, None)
  else
    let sorting := strings.Split sort "," in
    let '(resultedOrders, errSortingWithReason) :=
      fold_left (sortingStep modelMapping) sorting ([], []) in
    let sortingFilterOption : Query V -> outcome V := fun query =>
      Returns (fold_left (fun query val => query ++ [Order val]) resultedOrders query) in
    if negb (length errSortingWithReason =? 0)%nat
    then (Some sortingFilterOption,
          Some (Errorf "at least one sorting parameter is not valid: %q"
                  [ArgStr (strings.Join errSortingWithReason ",")]))
    else (Some sortingFilterOption, None).

Definition getFilterKey (queryName : string) (modelMapping : M) : string * bool :=
  let field := strings.TrimPrefix queryName "filter[" in
  let field := strings.TrimSuffix field "]" in
  let '(mapped, isValid) := Map modelMapping field in
  if negb isValid then (field, false) else (mapped, true).

(** The inner loop of [getFilterValues]; [None] is its early
    [return nil, false]. *)
Fixpoint sanitizeSeparated (fieldName : string) (separatedValues : list string)
    (sanitizer : S) (filterValues : list V) : option (list V) :=
  match separatedValues with
  | [] => Some filterValues
  | separatedValue :: rest =>
      match SanitizeValue sanitizer fieldName separatedValue with
      | Err _ => None
      | Ok sanitized =>
          sanitizeSeparated fieldName rest sanitizer (filterValues ++ [sanitized])
      end
  end.

(** The outer loop of [getFilterValues]. *)
Fixpoint sanitizeValues (fieldName : string) (queryValues : list string)
    (sanitizer : S) (filterValues : list V) : option (list V) :=
  match queryValues with
  | [] => Some filterValues
  | value :: rest =>
      match sanitizeSeparated fieldName (strings.Split value ",") sanitizer filterValues with
      | None => None
      | Some filterValues => sanitizeValues fieldName rest sanitizer filterValues
      end
  end.

Definition getFilterValues (fieldName : string) (queryValues : list string)
    (sanitizer : S) : list V * bool :=
  match sanitizeValues fieldName queryValues sanitizer [] with
  | Some filterValues => (filterValues, true)
  | None => ([], false)
  end.

(** One turn of the loop over the query parameters; the state is
    [(filter, invalidFilter)]. *)
Definition filterStep (modelMapping : M) (sanitizer : S)
    (st : gmap string (list V) * list string) (entry : string * list string)
  : gmap string (list V) * list string :=
  let '(filter, invalidFilter) := st in
  let '(queryName, queryValues) := entry in
  if negb (strings.HasPrefix queryName "filter[" && strings.HasSuffix queryName "]")
  then st
  else
    let '(key, isValid) := getFilterKey queryName modelMapping in
    if negb isValid then (filter, invalidFilter ++ [key])
    else
      let '(filterValues, isValid) := getFilterValues key queryValues sanitizer in
      if negb isValid then (filter, invalidFilter ++ [key])
      else (<[key := filterValues]> filter, invalidFilter).

(** The parsing loop of [FilterFromRequest]. *)
Definition parseFilter (r : Request) (modelMapping : M) (sanitizer : S)
  : gmap string (list V) * list string :=
  fold_left (filterStep modelMapping sanitizer)
    (rangeOrder _ (URL_Query r)) (∅, []).

(** One turn of the loop of [filterQueryOption]. *)
Definition applyFilter (query : Query V) (entry : string * list V) : Query V :=
  let '(name, filterValues) := entry in
  match filterValues with
  | [] => query
  | [v] =>
      let query := query ++ [Where (name +:+ " = ?") (Value v)] in
      query ++ [Printf "%s = %s" name v]
  | _ => query ++ [Where (name +:+ " IN (?)") (In filterValues)]
  end.

Definition FilterFromRequest (r : Request) (modelMapping : M) (sanitizer : S)
  : QueryOption V * option error :=
  let '(filter, invalidFilter) := parseFilter r modelMapping sanitizer in
  let filterQueryOption : Query V -> outcome V := fun query =>
    Returns (fold_left applyFilter (rangeOrder _ filter) query) in
  if negb (length invalidFilter =? 0)%nat
  then (Some filterQueryOption,
        Some (Errorf "at least one filter parameter is not valid: %q"
                [ArgStr (strings.Join invalidFilter ",")]))
  else (Some filterQueryOption, None).

(** [err != nil && option != nil] *)
Definition bothSet (err : option error) (option : QueryOption V) : bool :=
  match err, option with
  | Some _, Some _ => true
  | _, _ => false
  end.

Definition FilterPagingSortingFromRequest (r : Request) (modelMapping : M)
    (sanitizer : S) : QueryOption V * option error :=
  let '(sortingOption, err) := SortingFromRequest r modelMapping in
  if bothSet err sortingOption then (None, err)
  else
    let '(paginationOption, err) := PaginationFromRequest r in
    if bothSet err paginationOption then (None, err)
    else
      let '(filterOption, err) := FilterFromRequest r modelMapping sanitizer in
      if bothSet err filterOption then (None, err)
      else
        (Some (fun query =>
                 andThen (andThen (call sortingOption query) (call filterOption))
                         (call paginationOption)),
         None).

End Runtime.

(** ** Vocabulary of the statements *)

(** The offset the closure of [PaginationFromRequest] passes to
    [query.Offset]. *)
Definition pageOffset (pageSize pageNr : Z) : Z :=
  if pageNr =? 0 then 0 else int_sub (int_mul pageSize pageNr) 1.

(** The non-empty tokens of a [sort] parameter, in the order they occur. *)
Definition sortTokens (sort : string) : list string :=
  List.filter (fun val => negb (String.eqb val "")) (strings.Split sort ",").

(** A sort token without its direction mark, and the direction it asks. *)
Definition sortName (val : string) : string := strings.TrimPrefix val "-".
Definition sortDirection (val : string) : string :=
  if strings.HasPrefix val "-" then " DESC" else " ASC".

(** Whether the mapper accepts a sort token, and the clause it then gives. *)
Definition sortAccepted {M} `{!ColumnMapper M} (modelMapping : M) (val : string) : bool :=
  snd (Map modelMapping (sortName val)).
Definition sortClause {M} `{!ColumnMapper M} (modelMapping : M) (val : string) : string :=
  fst (Map modelMapping (sortName val)) +:+ sortDirection val.

(** The test [FilterFromRequest] makes on a parameter name. *)
Definition isFilterParam (queryName : string) : bool :=
  strings.HasPrefix queryName "filter[" && strings.HasSuffix queryName "]".

(** The effects one entry of the [filter] map contributes when the filter
    closure runs. *)
Definition filterEffects {V} (entry : string * list V) : list (effect V) :=
  match entry.2 with
  | [] => []
  | [v] => [Where (entry.1 +:+ " = ?") (Value v); Printf "%s = %s" entry.1 v]
  | _ => [Where (entry.1 +:+ " IN (?)") (In entry.2)]
  end.

(** The predicates put on a column: the [Where] calls whose condition is
    the equality or the membership test on that column. *)
Definition isWhereOn {V} (name : string) (e : effect V) : bool :=
  match e with
  | Where condition _ =>
      String.eqb condition (name +:+ " = ?") || String.eqb condition (name +:+ " IN (?)")
  | _ => false
  end.

Definition wheresOn {V} (name : string) (q : Query V) : Query V :=
  List.filter (isWhereOn name) q.

Fixpoint lastByte (s : string) : option ascii :=
  match s with
  | EmptyString => None
  | String c EmptyString => Some c
  | String _ s' => lastByte s'
  end.

(** The name a request parameter adds to [invalidFilter], if any: the
    request field when the mapper rejects it, the mapped column when one of
    its values fails sanitization. *)
Definition invalidName {V M S} `{!ColumnMapper M} `{!ValueSanitizer S V}
    (modelMapping : M) (sanitizer : S) (entry : string * list string) : list string :=
  if isFilterParam entry.1 then
    let '(key, isValid) := getFilterKey entry.1 modelMapping in
    if isValid then
      if (getFilterValues (V := V) key entry.2 sanitizer).2 then [] else [key]
    else [key]
  else [].

(** ** A small API, for the examples

    A mapper over a fixed table, a sanitizer that keeps a value as it is
    but refuses the empty one, and the [range] order that visits a map in
    the order of its enumeration. *)

Definition exampleMapper : MapMapper :=
  NewMapMapper
    (list_to_map [("name", "col_name"); ("age", "col_age"); ("color", "col_color")]).

Inductive NonEmpty : Type := nonEmpty.

#[export] Instance NonEmpty_SanitizeValue : ValueSanitizer NonEmpty string :=
  fun _ fieldName value =>
    if String.eqb value "" then Err (Errorf "empty value for %q" [ArgStr fieldName])
    else Ok value.

Definition enumOrder : forall A : Type, gmap string A -> list (string * A) :=
  fun A m => map_to_list m.

Definition request (params : list (string * list string)) : Request :=
  {| URL_Query := list_to_map params |}.

(** [?page[number]=2&page[size]=10] *)
Definition pageTwoOfTen : Request :=
  request [("page[number]", ["2"]); ("page[size]", ["10"])].

(** [?page[number]=4611686018427387904&page[size]=4]; the page number is [2^62]. *)
Definition hugePage : Request :=
  request [("page[number]", ["4611686018427387904"]); ("page[size]", ["4"])].


(** [?page[number]=&page[size]=10]: the page number is there, and empty. *)
Definition emptyPageNumber : Request :=
  request [("page[number]", [""]); ("page[size]", ["10"])].

(** [?page[size]=10] *)
Definition noPageNumber : Request :=
  request [("page[size]", ["10"])].

(** [?page[number]=1&page[size]=abc] *)
Definition badPageSize : Request :=
  request [("page[number]", ["1"]); ("page[size]", ["abc"])].

(** [?page[number]=1&page[size]=101] *)
Definition largePageSize : Request :=
  request [("page[number]", ["1"]); ("page[size]", ["101"])].

(** [?sort=-name,age] and [?sort=-name,bogus] *)
Definition sortNameAge : Request := request [("sort", ["-name,age"])].
Definition sortNameBogus : Request := request [("sort", ["-name,bogus"])].

(** [?filter[color]=red], [?filter[color]=red,blue],
    [?filter[color]=red&filter[bad]=x] and [?filter[color]=red,] (the second
    value of the last one is empty). *)
Definition filterRed : Request := request [("filter[color]", ["red"])].
Definition filterRedBlue : Request := request [("filter[color]", ["red,blue"])].
Definition filterRedAndBad : Request :=
  request [("filter[color]", ["red"]); ("filter[bad]", ["x"])].
Definition filterRedEmpty : Request := request [("filter[color]", ["red,"])].

(** [?page[number]=1&page[size]=abc&filter[color]=red] and
    [?page[number]=1&page[size]=abc&filter[bad]=x] *)
Definition badPageSizeFilterRed : Request :=
  request [("page[number]", ["1"]); ("page[size]", ["abc"]); ("filter[color]", ["red"])].
Definition badPageSizeFilterBad : Request :=
  request [("page[number]", ["1"]); ("page[size]", ["abc"]); ("filter[bad]", ["x"])].

(** [?sort=age&filter[color]=red&page[number]=1&page[size]=5] *)
Definition sortFilterPage : Request :=
  request [("sort", ["age"]); ("filter[color]", ["red"]);
           ("page[number]", ["1"]); ("page[size]", ["5"])].

(** [?sort=bogus&filter[color]=red] *)
Definition sortBogusFilterRed : Request :=
  request [("sort", ["bogus"]); ("filter[color]", ["red"])].

(** Bounds the wrong way round, as the environment may give them. *)
Definition invertedConfig : config := {| MaxPageSize := 1; MinPageSize := 5 |}.

(** [?page[number]=0&page[size]=10], [?page[number]=1&page[size]=10] and
    [?page[number]=3&page[size]=10] *)
Definition pageZeroOfTen : Request :=
  request [("page[number]", ["0"]); ("page[size]", ["10"])].
Definition pageOneOfTen : Request :=
  request [("page[number]", ["1"]); ("page[size]", ["10"])].
Definition pageThreeOfTen : Request :=
  request [("page[number]", ["3"]); ("page[size]", ["10"])].

(** [?sort=,,] *)
Definition sortOnlyCommas : Request := request [("sort", [",,"])].

(** The tokens [getFilterValues] hands to the sanitizer for the values of
    one parameter: each value split at its commas, in order. *)
Definition filterTokens (queryValues : list string) : list string :=
  flat_map (fun value => strings.Split value ",") queryValues.

(** [?sort=age&page[number]=2&page[size]=10]: no filter parameter. *)
Definition sortAndPage : Request :=
  request [("sort", ["age"]); ("page[number]", ["2"]); ("page[size]", ["10"])].




(** ** Checks of the library models *)

Example Split_empty : strings.Split "" "," = [""].
Proof. reflexivity. Qed.

Example Split_three : strings.Split "-name,,age" "," = ["-name"; ""; "age"].
Proof. reflexivity. Qed.

Example TrimSuffix_bracket :
  strings.TrimSuffix (strings.TrimPrefix "filter[color]" "filter[") "]" = "color".
Proof. reflexivity. Qed.

Example Atoi_19 : strconv.Atoi "19" = Ok 19.
Proof. reflexivity. Qed.

Example Atoi_neg : strconv.Atoi "-7" = Ok (-7).
Proof. reflexivity. Qed.

Example Atoi_plus : strconv.Atoi "+" = Err (NumError "Atoi" "+" ErrSyntax).
Proof. reflexivity. Qed.

Example Atoi_min : strconv.Atoi "-9223372036854775808" = Ok minInt.
Proof. vm_compute. reflexivity. Qed.

Example Atoi_big :
  strconv.Atoi "9223372036854775808"
  = Err (NumError "Atoi" "9223372036854775808" ErrRange).
Proof. vm_compute. reflexivity. Qed.


(** ** Facts about [int] *)

Lemma wrapInt_inInt (z : Z) : inInt z -> wrapInt z = z.
Proof.
  unfold inInt, minInt, maxInt, wrapInt, intSize.
  change (2 ^ (64 - 1)) with 9223372036854775808.
  change (2 ^ 64) with 18446744073709551616. intros Hz.
  rewrite Z.mod_small; lia.
Qed.

Lemma wrapInt_range (z : Z) : inInt (wrapInt z).
Proof.
  unfold inInt, minInt, maxInt, wrapInt, intSize.
  change (2 ^ (64 - 1)) with 9223372036854775808.
  change (2 ^ 64) with 18446744073709551616.
  pose proof (Z.mod_pos_bound (z + 9223372036854775808) 18446744073709551616). lia.
Qed.

Lemma int_sub_int_mul (a b c : Z) :
  int_sub (int_mul a b) c = wrapInt (a * b - c).
Proof.
  unfold int_sub, int_mul, wrapInt. f_equal.
  replace ((a * b + 2 ^ (intSize - 1)) mod 2 ^ intSize - 2 ^ (intSize - 1)
           - c + 2 ^ (intSize - 1))
    with ((a * b + 2 ^ (intSize - 1)) mod 2 ^ intSize - c) by lia.
  rewrite Zminus_mod_idemp_l. f_equal. lia.
Qed.

(** ** Facts about [Get] and the query projections *)

Lemma Get_absent (v : gmap string (list string)) (key : string) :
  v !! key = None -> Get v key = "".
Proof. unfold Get. intros ->. reflexivity. Qed.

Lemma Atoi_empty : strconv.Atoi "" = Err (NumError "Atoi" "" ErrSyntax).
Proof. reflexivity. Qed.

Lemma Atoi_Ok_nonempty (s : string) (n : Z) : strconv.Atoi s = Ok n -> s <> "".
Proof. intros H ->. discriminate H. Qed.

Lemma Atoi_Err (s : string) (e : error) :
  strconv.Atoi s = Err e -> exists k, e = NumError "Atoi" s k.
Proof.
  unfold strconv.Atoi. intros H.
  repeat match type of H with
         | context [match ?x with _ => _ end] => destruct x
         end; inversion H; eauto.
Qed.

Lemma eqb_empty_false (s : string) : s <> "" -> String.eqb s "" = false.
Proof. intros H. apply String.eqb_neq. exact H. Qed.

Section QueryFacts.

Context {V : Type}.

Lemma offsetOf_snoc_Limit (q : Query V) (n : Z) :
  offsetOf (q ++ [Limit n]) = offsetOf q.
Proof.
  induction q as [|e q IH]; simpl; [reflexivity|]. rewrite IH. reflexivity.
Qed.

Lemma offsetOf_snoc_Offset (q : Query V) (n : Z) :
  offsetOf (q ++ [Offset n]) = Some n.
Proof.
  induction q as [|e q IH]; simpl; [reflexivity|]. rewrite IH. reflexivity.
Qed.

Lemma limitOf_snoc_Limit (q : Query V) (n : Z) :
  limitOf (q ++ [Limit n]) = Some n.
Proof.
  induction q as [|e q IH]; simpl; [reflexivity|]. rewrite IH. reflexivity.
Qed.

End QueryFacts.

(** ** Pagination *)

Section PaginationProperties.

Context {V : Type}.
Variable cfg : config.

Lemma Pagination_nop (r : Request) :
  Get (URL_Query r) "page[number]" = "" \/ Get (URL_Query r) "page[size]" = "" ->
  PaginationFromRequest (V := V) cfg r = (Some nop, None).
Proof.
  unfold PaginationFromRequest. intros [-> | ->]; simpl.
  - reflexivity.
  - rewrite orb_true_r. reflexivity.
Qed.

Lemma Pagination_guard (r : Request) :
  Get (URL_Query r) "page[number]" <> "" ->
  Get (URL_Query r) "page[size]" <> "" ->
  String.eqb (Get (URL_Query r) "page[number]") ""
  || String.eqb (Get (URL_Query r) "page[size]") "" = false.
Proof. intros H1 H2. rewrite !eqb_empty_false by assumption. reflexivity. Qed.

Lemma Pagination_bad_number (r : Request) (e : error) :
  Get (URL_Query r) "page[number]" <> "" ->
  Get (URL_Query r) "page[size]" <> "" ->
  strconv.Atoi (Get (URL_Query r) "page[number]") = Err e ->
  PaginationFromRequest (V := V) cfg r = (None, Some e).
Proof.
  intros H1 H2 He. unfold PaginationFromRequest.
  rewrite Pagination_guard, He by assumption. reflexivity.
Qed.

Lemma Pagination_bad_size (r : Request) (pageNr : Z) (e : error) :
  Get (URL_Query r) "page[size]" <> "" ->
  strconv.Atoi (Get (URL_Query r) "page[number]") = Ok pageNr ->
  strconv.Atoi (Get (URL_Query r) "page[size]") = Err e ->
  PaginationFromRequest (V := V) cfg r = (None, Some e).
Proof.
  intros H2 Hn He. unfold PaginationFromRequest.
  rewrite Pagination_guard, Hn, He; eauto using Atoi_Ok_nonempty.
Qed.

Lemma Pagination_out_of_bounds (r : Request) (pageNr pageSize : Z) :
  strconv.Atoi (Get (URL_Query r) "page[number]") = Ok pageNr ->
  strconv.Atoi (Get (URL_Query r) "page[size]") = Ok pageSize ->
  pageSize < MinPageSize cfg \/ MaxPageSize cfg < pageSize ->
  PaginationFromRequest (V := V) cfg r
  = (None,
     Some (Errorf "invalid pagesize not between min. and max. value, min: %d, max: %d"
             [ArgInt (MinPageSize cfg); ArgInt (MaxPageSize cfg)])).
Proof.
  intros Hn Hs Hb. unfold PaginationFromRequest.
  rewrite Pagination_guard, Hn, Hs; eauto using Atoi_Ok_nonempty.
  replace ((pageSize <? MinPageSize cfg) || (MaxPageSize cfg <? pageSize))
    with true; [reflexivity|].
  symmetry. apply orb_true_iff. rewrite !Z.ltb_lt. exact Hb.
Qed.

Lemma Pagination_in_bounds (r : Request) (pageNr pageSize : Z) :
  strconv.Atoi (Get (URL_Query r) "page[number]") = Ok pageNr ->
  strconv.Atoi (Get (URL_Query r) "page[size]") = Ok pageSize ->
  MinPageSize cfg <= pageSize <= MaxPageSize cfg ->
  exists m : Query V -> outcome V,
    PaginationFromRequest cfg r = (Some m, None)
    /\ forall query,
         m query = Returns (query ++ [Offset (pageOffset pageSize pageNr); Limit pageSize]).
Proof.
  intros Hn Hs Hb. unfold PaginationFromRequest.
  rewrite Pagination_guard, Hn, Hs; eauto using Atoi_Ok_nonempty.
  replace ((pageSize <? MinPageSize cfg) || (MaxPageSize cfg <? pageSize))
    with false.
  - eexists. split; [reflexivity|]. intros query. unfold pageOffset.
    destruct (pageNr =? 0); rewrite <- app_assoc; reflexivity.
  - symmetry. apply orb_false_iff. rewrite !Z.ltb_ge. lia.
Qed.

(** Every result of [PaginationFromRequest] is one of: the no-op, an
    error with a nil option, or the offset/limit closure. *)
Lemma Pagination_result (r : Request) :
  PaginationFromRequest (V := V) cfg r = (Some nop, None)
  \/ (exists e, PaginationFromRequest (V := V) cfg r = (None, Some e))
  \/ (exists pageNr pageSize (m : Query V -> outcome V),
        strconv.Atoi (Get (URL_Query r) "page[number]") = Ok pageNr
        /\ strconv.Atoi (Get (URL_Query r) "page[size]") = Ok pageSize
        /\ MinPageSize cfg <= pageSize <= MaxPageSize cfg
        /\ PaginationFromRequest cfg r = (Some m, None)
        /\ forall query,
             m query
             = Returns (query ++ [Offset (pageOffset pageSize pageNr); Limit pageSize])).
Proof.
  destruct (decide (Get (URL_Query r) "page[number]" = "")) as [H1|H1];
    [left; apply Pagination_nop; auto|].
  destruct (decide (Get (URL_Query r) "page[size]" = "")) as [H2|H2];
    [left; apply Pagination_nop; auto|].
  right.
  destruct (strconv.Atoi (Get (URL_Query r) "page[number]")) as [pageNr|e] eqn:Hn;
    [|left; exists e; apply Pagination_bad_number; auto].
  destruct (strconv.Atoi (Get (URL_Query r) "page[size]")) as [pageSize|e] eqn:Hs;
    [|left; exists e; eapply Pagination_bad_size; eauto].
  destruct (Z_lt_dec pageSize (MinPageSize cfg)) as [Hlo|Hlo];
    [left; eexists; eapply Pagination_out_of_bounds; eauto|].
  destruct (Z_lt_dec (MaxPageSize cfg) pageSize) as [Hhi|Hhi];
    [left; eexists; eapply Pagination_out_of_bounds; eauto|].
  right. exists pageNr, pageSize.
  destruct (Pagination_in_bounds r pageNr pageSize) as (m & Hm & Hq); auto; [lia|].
  exists m. repeat split; auto; lia.
Qed.

End PaginationProperties.

(** ** Sorting *)

Section SortingProperties.

Context {V M : Type} `{!ColumnMapper M}.

Lemma Order_loop (resultedOrders : list string) (query : Query V) :
  fold_left (fun query val => query ++ [Order val]) resultedOrders query
  = query ++ map Order resultedOrders.
Proof.
  revert query. induction resultedOrders as [|o os IH]; intros query; simpl.
  - rewrite app_nil_r. reflexivity.
  - rewrite IH, <- app_assoc. reflexivity.
Qed.

Lemma sortingStep_empty (modelMapping : M) (st : list string * list string) :
  sortingStep modelMapping st "" = st.
Proof. destruct st. reflexivity. Qed.

Lemma sortingStep_accepted (modelMapping : M) (val : string)
    (resultedOrders errs : list string) :
  String.eqb val "" = false ->
  sortAccepted modelMapping val = true ->
  sortingStep modelMapping (resultedOrders, errs) val
  = (resultedOrders ++ [sortClause modelMapping val], errs).
Proof.
  unfold sortingStep, sortAccepted, sortClause, sortName, sortDirection.
  intros -> Hacc.
  destruct (Map modelMapping (strings.TrimPrefix val "-")) as [key isValid].
  simpl in Hacc. subst isValid. reflexivity.
Qed.

Lemma sortingStep_rejected (modelMapping : M) (val : string)
    (resultedOrders errs : list string) :
  String.eqb val "" = false ->
  sortAccepted modelMapping val = false ->
  sortingStep modelMapping (resultedOrders, errs) val
  = (resultedOrders, errs ++ [sortName val]).
Proof.
  unfold sortingStep, sortAccepted, sortName.
  intros -> Hacc.
  destruct (Map modelMapping (strings.TrimPrefix val "-")) as [key isValid].
  simpl in Hacc. subst isValid. reflexivity.
Qed.

(** The loop over the tokens: accepted tokens extend [resultedOrders],
    rejected ones [errSortingWithReason], both in encounter order. *)
Lemma sorting_loop (modelMapping : M) (sorting : list string)
    (resultedOrders errs : list string) :
  fold_left (sortingStep modelMapping) sorting (resultedOrders, errs)
  = (resultedOrders
     ++ map (sortClause modelMapping)
          (List.filter (sortAccepted modelMapping)
             (List.filter (fun val => negb (String.eqb val "")) sorting)),
     errs
     ++ map sortName
          (List.filter (fun val => negb (sortAccepted modelMapping val))
             (List.filter (fun val => negb (String.eqb val "")) sorting))).
Proof.
  revert resultedOrders errs.
  induction sorting as [|val rest IH]; intros resultedOrders errs.
  - simpl. rewrite !app_nil_r. reflexivity.
  - cbn [fold_left List.filter].
    destruct (String.eqb val "") eqn:Hval.
    + apply String.eqb_eq in Hval. subst val.
      rewrite sortingStep_empty. apply IH.
    + cbn [negb List.filter].
      destruct (sortAccepted modelMapping val) eqn:Hacc; cbn [negb map].
      * rewrite sortingStep_accepted, IH, <- app_assoc by assumption. reflexivity.
      * rewrite sortingStep_rejected, IH, <- app_assoc by assumption. reflexivity.
Qed.

Lemma Split_nonempty_token (sort val : string) :
  val ∈ sortTokens sort -> sort <> "".
Proof.
  intros Hin ->. unfold sortTokens in Hin. simpl in Hin.
  apply elem_of_nil in Hin. exact Hin.
Qed.

(** What [SortingFromRequest] returns, for any request. *)
Lemma Sorting_result (r : Request) (modelMapping : M) :
  let tokens := sortTokens (Get (URL_Query r) "sort") in
  let invalid :=
    map sortName (List.filter (fun val => negb (sortAccepted modelMapping val)) tokens) in
  exists m : Query V -> outcome V,
    SortingFromRequest r modelMapping
    = (Some m,
       if negb (length invalid =? 0)%nat
       then Some (Errorf "at least one sorting parameter is not valid: %q"
                    [ArgStr (strings.Join invalid ",")])
       else None)
    /\ forall query,
         m query
         = Returns (query
                    ++ map Order
                         (map (sortClause modelMapping)
                            (List.filter (sortAccepted modelMapping) tokens))).
Proof.
  intros tokens invalid. unfold SortingFromRequest.
  destruct (String.eqb (Get (URL_Query r) "sort") "") eqn:Hsort.
  - apply String.eqb_eq in Hsort. subst tokens invalid. rewrite Hsort. simpl.
    exists nop. split; [reflexivity|]. intros query. unfold nop.
    rewrite app_nil_r. reflexivity.
  - rewrite sorting_loop. simpl app. fold (sortTokens (Get (URL_Query r) "sort")).
    fold tokens. fold invalid.
    destruct (negb (length invalid =? 0)%nat);
      (eexists; split; [reflexivity|]; intros query; cbv beta;
       rewrite Order_loop; reflexivity).
Qed.

End SortingProperties.

(** ** Conditions built from column names *)

Lemma append_nil_l (t : string) : "" +:+ t = t.
Proof. reflexivity. Qed.

Lemma append_cons (c : ascii) (s t : string) : String c s +:+ t = String c (s +:+ t).
Proof. reflexivity. Qed.

Lemma length_append (s t : string) :
  String.length (s +:+ t) = (String.length s + String.length t)%nat.
Proof.
  induction s as [|c s IH]; [reflexivity|].
  rewrite append_cons. simpl. rewrite IH. reflexivity.
Qed.

Lemma append_cancel_r (s1 s2 t : string) : s1 +:+ t = s2 +:+ t -> s1 = s2.
Proof.
  revert s2. induction s1 as [|c s1 IH]; intros [|d s2] H.
  - reflexivity.
  - apply (f_equal String.length) in H.
    rewrite !length_append in H. simpl in H. lia.
  - apply (f_equal String.length) in H.
    rewrite !length_append in H. simpl in H. lia.
  - rewrite !append_cons in H. injection H as -> H. f_equal. apply IH. exact H.
Qed.

Lemma lastByte_append (s t : string) :
  t <> "" -> lastByte (s +:+ t) = lastByte t.
Proof.
  intros Ht. induction s as [|c s IH]; [reflexivity|].
  rewrite append_cons. simpl. rewrite <- IH.
  destruct (s +:+ t) eqn:Hst; [|reflexivity].
  destruct s; [rewrite append_nil_l in Hst; contradiction|].
  rewrite append_cons in Hst. discriminate.
Qed.

Lemma eq_condition_neq_in_condition (name name' : string) :
  name +:+ " = ?" <> name' +:+ " IN (?)".
Proof.
  intros H. apply (f_equal lastByte) in H.
  rewrite !lastByte_append in H by discriminate. discriminate H.
Qed.

Lemma isWhereOn_eq_condition {V} (name name' : string) (p : whereParam V) :
  isWhereOn name (Where (name' +:+ " = ?") p) = bool_decide (name' = name).
Proof.
  unfold isWhereOn. case_bool_decide as Hn.
  - subst. rewrite String.eqb_refl. reflexivity.
  - apply orb_false_iff. split; apply String.eqb_neq; intros H.
    + apply append_cancel_r in H. contradiction.
    + exact (eq_condition_neq_in_condition _ _ H).
Qed.

Lemma isWhereOn_in_condition {V} (name name' : string) (p : whereParam V) :
  isWhereOn name (Where (name' +:+ " IN (?)") p) = bool_decide (name' = name).
Proof.
  unfold isWhereOn. case_bool_decide as Hn.
  - subst. rewrite String.eqb_refl, orb_true_r. reflexivity.
  - apply orb_false_iff. split; apply String.eqb_neq; intros H.
    + symmetry in H. exact (eq_condition_neq_in_condition _ _ H).
    + apply append_cancel_r in H. contradiction.
Qed.

(** The predicates one entry puts on a column: its own column only. *)
Lemma wheresOn_filterEffects {V} (name : string) (entry : string * list V) :
  wheresOn name (filterEffects entry)
  = if bool_decide (entry.1 = name) then
      match entry.2 with
      | [] => []
      | [v] => [Where (name +:+ " = ?") (Value v)]
      | _ => [Where (name +:+ " IN (?)") (In entry.2)]
      end
    else [].
Proof.
  destruct entry as [name' vs]. unfold wheresOn, filterEffects.
  destruct vs as [|v [|v' vs]]; cbn [fst snd List.filter].
  - destruct (bool_decide (name' = name)); reflexivity.
  - rewrite isWhereOn_eq_condition.
    case_bool_decide; subst; reflexivity.
  - rewrite isWhereOn_in_condition.
    case_bool_decide; subst; reflexivity.
Qed.

Lemma wheresOn_app {V} (name : string) (q1 q2 : Query V) :
  wheresOn name (q1 ++ q2) = wheresOn name q1 ++ wheresOn name q2.
Proof. apply List.filter_app. Qed.

(** Over entries with pairwise distinct columns, the predicates on a
    column are those of its one entry. *)
Lemma wheresOn_entries {V} (name : string) (l : list (string * list V)) :
  NoDup l.*1 ->
  (forall vs, (name, vs) ∈ l ->
     wheresOn name (flat_map filterEffects l) = wheresOn name (filterEffects (name, vs)))
  /\ (name ∉ l.*1 -> wheresOn name (flat_map filterEffects l) = []).
Proof.
  induction l as [|[name' vs'] l IH]; intros Hnd.
  - split; [intros vs Hin; inversion Hin | reflexivity].
  - simpl in Hnd. apply NoDup_cons in Hnd as [Hnotin Hnd].
    destruct (IH Hnd) as [IHin IHout]. simpl flat_map. split.
    + intros vs Hin. rewrite wheresOn_app. apply elem_of_cons in Hin as [Heq|Hin].
      * injection Heq as <- <-. rewrite IHout by exact Hnotin.
        apply app_nil_r.
      * rewrite (IHin vs Hin), (wheresOn_filterEffects name (name', vs')). simpl.
        case_bool_decide as Hn; [|reflexivity]. subst name'.
        exfalso. apply Hnotin. apply list_elem_of_fmap. exists (name, vs). auto.
    + intros Hout. simpl in Hout. apply not_elem_of_cons in Hout as [Hne Hout].
      rewrite wheresOn_app, (IHout Hout), (wheresOn_filterEffects name (name', vs')).
      simpl. case_bool_decide; [congruence | reflexivity].
Qed.

(** ** Filtering *)

Section FilterProperties.

Context {V M S : Type} `{!ColumnMapper M} `{!ValueSanitizer S V}.

Variable rangeOrder : forall A : Type, gmap string A -> list (string * A).

(** A [range] loop visits every entry of the map once. *)
Hypothesis rangeOrder_perm :
  forall (A : Type) (m : gmap string A), rangeOrder A m ≡ₚ map_to_list m.

Lemma rangeOrder_lookup {A} (m : gmap string A) (k : string) (a : A) :
  (k, a) ∈ rangeOrder A m <-> m !! k = Some a.
Proof. rewrite rangeOrder_perm. apply elem_of_map_to_list. Qed.

Lemma rangeOrder_NoDup {A} (m : gmap string A) : NoDup (rangeOrder A m).*1.
Proof. rewrite rangeOrder_perm. apply NoDup_fst_map_to_list. Qed.

Lemma rangeOrder_absent {A} (m : gmap string A) (k : string) :
  m !! k = None -> k ∉ (rangeOrder A m).*1.
Proof.
  intros Hk Hin. apply list_elem_of_fmap in Hin as ([k' a] & -> & Hin).
  apply rangeOrder_lookup in Hin. simpl in Hk. congruence.
Qed.

Lemma applyFilter_effects (query : Query V) (entry : string * list V) :
  applyFilter query entry = query ++ filterEffects entry.
Proof.
  destruct entry as [name [|v [|v' vs]]]; unfold applyFilter, filterEffects; simpl.
  - rewrite app_nil_r. reflexivity.
  - rewrite <- app_assoc. reflexivity.
  - reflexivity.
Qed.

Lemma filter_loop (l : list (string * list V)) (query : Query V) :
  fold_left applyFilter l query = query ++ flat_map filterEffects l.
Proof.
  revert query. induction l as [|entry l IH]; intros query; simpl.
  - rewrite app_nil_r. reflexivity.
  - rewrite IH, applyFilter_effects, <- app_assoc. reflexivity.
Qed.

(** What [FilterFromRequest] returns, for any request: always a closure,
    and an error exactly when [invalidFilter] is not empty. *)
Lemma Filter_result (r : Request) (modelMapping : M) (sanitizer : S) :
  let parsed := parseFilter rangeOrder r modelMapping sanitizer in
  exists m : Query V -> outcome V,
    FilterFromRequest rangeOrder r modelMapping sanitizer
    = (Some m,
       if negb (length parsed.2 =? 0)%nat
       then Some (Errorf "at least one filter parameter is not valid: %q"
                    [ArgStr (strings.Join parsed.2 ",")])
       else None)
    /\ forall query,
         m query
         = Returns (query ++ flat_map filterEffects (rangeOrder _ parsed.1)).
Proof.
  intros parsed. unfold FilterFromRequest. fold parsed.
  destruct parsed as [filter invalidFilter]. simpl.
  destruct (negb (length invalidFilter =? 0)%nat);
    (eexists; split; [reflexivity|]; intros query; cbv beta;
     rewrite filter_loop; reflexivity).
Qed.

(** One turn of the parsing loop, by the fate of the parameter. *)
Lemma filterStep_skip (modelMapping : M) (sanitizer : S)
    (st : gmap string (list V) * list string) (entry : string * list string) :
  isFilterParam entry.1 = false ->
  filterStep modelMapping sanitizer st entry = st.
Proof.
  destruct st, entry. unfold filterStep, isFilterParam. simpl.
  intros ->. reflexivity.
Qed.

Lemma filterStep_unmapped (modelMapping : M) (sanitizer : S)
    (filter : gmap string (list V)) (invalidFilter : list string)
    (entry : string * list string) (key : string) :
  isFilterParam entry.1 = true ->
  getFilterKey entry.1 modelMapping = (key, false) ->
  filterStep modelMapping sanitizer (filter, invalidFilter) entry
  = (filter, invalidFilter ++ [key]).
Proof.
  destruct entry. unfold filterStep, isFilterParam. simpl.
  intros -> ->. reflexivity.
Qed.

Lemma filterStep_unsanitized (modelMapping : M) (sanitizer : S)
    (filter : gmap string (list V)) (invalidFilter : list string)
    (entry : string * list string) (key : string) (vs : list V) :
  isFilterParam entry.1 = true ->
  getFilterKey entry.1 modelMapping = (key, true) ->
  getFilterValues key entry.2 sanitizer = (vs, false) ->
  filterStep modelMapping sanitizer (filter, invalidFilter) entry
  = (filter, invalidFilter ++ [key]).
Proof.
  destruct entry. unfold filterStep, isFilterParam. simpl.
  intros -> -> ->. reflexivity.
Qed.

Lemma filterStep_kept (modelMapping : M) (sanitizer : S)
    (filter : gmap string (list V)) (invalidFilter : list string)
    (entry : string * list string) (key : string) (vs : list V) :
  isFilterParam entry.1 = true ->
  getFilterKey entry.1 modelMapping = (key, true) ->
  getFilterValues key entry.2 sanitizer = (vs, true) ->
  filterStep modelMapping sanitizer (filter, invalidFilter) entry
  = (<[key := vs]> filter, invalidFilter).
Proof.
  destruct entry. unfold filterStep, isFilterParam. simpl.
  intros -> -> ->. reflexivity.
Qed.

(** The four fates are exhaustive. *)
Lemma filterStep_cases (modelMapping : M) (sanitizer : S)
    (entry : string * list string) :
  isFilterParam entry.1 = false
  \/ (isFilterParam entry.1 = true
      /\ exists key, getFilterKey entry.1 modelMapping = (key, false))
  \/ (isFilterParam entry.1 = true
      /\ exists key vs, getFilterKey entry.1 modelMapping = (key, true)
           /\ getFilterValues (V := V) key entry.2 sanitizer = (vs, false))
  \/ (isFilterParam entry.1 = true
      /\ exists key vs, getFilterKey entry.1 modelMapping = (key, true)
           /\ getFilterValues (V := V) key entry.2 sanitizer = (vs, true)).
Proof.
  destruct (isFilterParam entry.1); [right | left; reflexivity].
  destruct (getFilterKey entry.1 modelMapping) as [key [|]] eqn:Hk;
    [right | left; eauto].
  destruct (getFilterValues (V := V) key entry.2 sanitizer) as [vs [|]] eqn:Hv;
    [right | left]; eauto 6.
Qed.

Lemma invalidName_cases (modelMapping : M) (sanitizer : S)
    (st : gmap string (list V) * list string) (entry : string * list string) :
  (filterStep modelMapping sanitizer st entry).2
  = st.2 ++ invalidName (V := V) modelMapping sanitizer entry.
Proof.
  destruct st as [filter invalidFilter]. unfold invalidName.
  destruct (filterStep_cases modelMapping sanitizer entry)
    as [Hs | [[Hp [key Hk]] | [[Hp (key & vs & Hk & Hv)] | [Hp (key & vs & Hk & Hv)]]]].
  - rewrite filterStep_skip, Hs by exact Hs. simpl. rewrite app_nil_r. reflexivity.
  - rewrite (filterStep_unmapped _ _ _ _ _ key), Hp, Hk by assumption. reflexivity.
  - rewrite (filterStep_unsanitized _ _ _ _ _ key vs), Hp, Hk, Hv by assumption.
    reflexivity.
  - rewrite (filterStep_kept _ _ _ _ _ key vs), Hp, Hk, Hv by assumption.
    simpl. rewrite app_nil_r. reflexivity.
Qed.

(** [invalidFilter] after the loop: the names of the failing parameters,
    in the order the loop met them. *)
Lemma parse_loop_invalid (modelMapping : M) (sanitizer : S)
    (l : list (string * list string)) (st : gmap string (list V) * list string) :
  (fold_left (filterStep modelMapping sanitizer) l st).2
  = st.2 ++ flat_map (invalidName (V := V) modelMapping sanitizer) l.
Proof.
  revert st. induction l as [|entry l IH]; intros st; simpl.
  - rewrite app_nil_r. reflexivity.
  - rewrite IH, invalidName_cases, <- app_assoc. reflexivity.
Qed.

(** Every entry of [filter] after the loop was there before, or comes
    from a parameter that was mapped and whose values were all
    sanitized. *)
Lemma parse_loop_sound (modelMapping : M) (sanitizer : S)
    (l : list (string * list string)) (st : gmap string (list V) * list string)
    (name : string) (vs : list V) :
  (fold_left (filterStep modelMapping sanitizer) l st).1 !! name = Some vs ->
  st.1 !! name = Some vs
  \/ exists entry, entry ∈ l
       /\ isFilterParam entry.1 = true
       /\ getFilterKey entry.1 modelMapping = (name, true)
       /\ getFilterValues name entry.2 sanitizer = (vs, true).
Proof.
  revert st. induction l as [|entry l IH]; intros st Hres; simpl in Hres.
  - left. exact Hres.
  - destruct (IH _ Hres) as [Hst | (e & Hin & He)];
      [|right; exists e; split; [apply elem_of_cons; auto | exact He]].
    destruct st as [filter invalidFilter].
    destruct (filterStep_cases modelMapping sanitizer entry)
      as [Hs | [[Hp [key Hk]] | [[Hp (key & ws & Hk & Hv)] | [Hp (key & ws & Hk & Hv)]]]].
    + rewrite filterStep_skip in Hst by exact Hs. auto.
    + rewrite (filterStep_unmapped _ _ _ _ _ key) in Hst by assumption. auto.
    + rewrite (filterStep_unsanitized _ _ _ _ _ key ws) in Hst by assumption. auto.
    + rewrite (filterStep_kept _ _ _ _ _ key ws) in Hst by assumption.
      simpl in Hst. destruct (decide (key = name)) as [->|Hne].
      * rewrite lookup_insert_eq in Hst. injection Hst as ->.
        right. exists entry. split; [apply elem_of_cons; auto | auto].
      * rewrite lookup_insert_ne in Hst by exact Hne. auto.
Qed.

(** Parameters that do not map to a column leave its entry alone. *)
Lemma parse_loop_untouched (modelMapping : M) (sanitizer : S)
    (l : list (string * list string)) (st : gmap string (list V) * list string)
    (name : string) :
  (forall entry, entry ∈ l -> isFilterParam entry.1 = true ->
                 getFilterKey entry.1 modelMapping = (name, true) -> False) ->
  (fold_left (filterStep modelMapping sanitizer) l st).1 !! name = st.1 !! name.
Proof.
  revert st. induction l as [|entry l IH]; intros st Hl; simpl; [reflexivity|].
  rewrite IH by (intros e He; apply Hl, elem_of_cons; auto).
  destruct st as [filter invalidFilter].
  destruct (filterStep_cases modelMapping sanitizer entry)
    as [Hs | [[Hp [key Hk]] | [[Hp (key & ws & Hk & Hv)] | [Hp (key & ws & Hk & Hv)]]]].
  - rewrite filterStep_skip by exact Hs. reflexivity.
  - rewrite (filterStep_unmapped _ _ _ _ _ key) by assumption. reflexivity.
  - rewrite (filterStep_unsanitized _ _ _ _ _ key ws) by assumption. reflexivity.
  - rewrite (filterStep_kept _ _ _ _ _ key ws) by assumption. simpl.
    apply lookup_insert_ne. intros ->.
    apply (Hl entry); [apply elem_of_cons; auto | assumption..].
Qed.

(** A fully valid parameter that is the only one mapped to its column
    ends up in [filter]. *)
Lemma parse_loop_complete (modelMapping : M) (sanitizer : S)
    (l : list (string * list string)) (st : gmap string (list V) * list string)
    (entry : string * list string) (name : string) (vs : list V) :
  entry ∈ l ->
  isFilterParam entry.1 = true ->
  getFilterKey entry.1 modelMapping = (name, true) ->
  getFilterValues name entry.2 sanitizer = (vs, true) ->
  (forall e, e ∈ l -> isFilterParam e.1 = true ->
             getFilterKey e.1 modelMapping = (name, true) -> e = entry) ->
  (fold_left (filterStep modelMapping sanitizer) l st).1 !! name = Some vs.
Proof.
  intros Hin Hp Hk Hv. revert st Hin.
  induction l as [|e l IH]; intros st Hin Huniq; [inversion Hin|]. simpl.
  destruct (decide (entry ∈ l)) as [Hl|Hl].
  - apply IH; [exact Hl|]. intros e' He'. apply Huniq, elem_of_cons. auto.
  - apply elem_of_cons in Hin as [<-|Hin]; [|contradiction].
    rewrite parse_loop_untouched.
    + destruct st as [filter invalidFilter].
      rewrite (filterStep_kept _ _ _ _ _ name vs) by assumption.
      apply lookup_insert_eq.
    + intros e' He' Hp' Hk'. apply Hl.
      rewrite <- (Huniq e'); [exact He' | apply elem_of_cons; auto | assumption..].
Qed.

End FilterProperties.

(** ** Pagination: the modifier and the errors *)

Section PaginationClaims.

Context {V : Type}.
Variable cfg : config.

(** C3 (as amended).  When [page[number]] and [page[size]] hold the
    integers [number] and [size] and [MinPageSize <= size <= MaxPageSize],
    the modifier sets the limit to [size] and the offset to [0] for
    [number = 0], and otherwise to [size * number - 1] reduced to Go's
    [int]: that is [size * number - 1] itself whenever this value is in the
    range of [int]. *)
Theorem Pagination_offset_limit (r : Request) (number size : Z) :
  strconv.Atoi (Get (URL_Query r) "page[number]") = Ok number ->
  strconv.Atoi (Get (URL_Query r) "page[size]") = Ok size ->
  MinPageSize cfg <= size <= MaxPageSize cfg ->
  exists m : Query V -> outcome V,
    PaginationFromRequest cfg r = (Some m, None)
    /\ forall query, exists query',
         m query = Returns query'
         /\ limitOf query' = Some size
         /\ (number = 0 -> offsetOf query' = Some 0)
         /\ (number <> 0 -> offsetOf query' = Some (wrapInt (size * number - 1)))
         /\ (number <> 0 -> inInt (size * number - 1) ->
             offsetOf query' = Some (size * number - 1)).
Proof.
  intros Hn Hs Hb.
  destruct (Pagination_in_bounds (V := V) cfg r number size Hn Hs Hb) as (m & Hm & Hq).
  exists m. split; [exact Hm|]. intros query. eexists. split; [apply Hq|].
  change (query ++ [Offset (pageOffset size number); Limit size])
    with (query ++ [Offset (V := V) (pageOffset size number)] ++ [Limit size]).
  rewrite app_assoc, limitOf_snoc_Limit, offsetOf_snoc_Limit, offsetOf_snoc_Offset.
  unfold pageOffset. repeat split.
  - intros ->. reflexivity.
  - intros Hne. apply Z.eqb_neq in Hne. rewrite Hne, int_sub_int_mul. reflexivity.
  - intros Hne Hin. apply Z.eqb_neq in Hne.
    rewrite Hne, int_sub_int_mul, wrapInt_inInt by exact Hin. reflexivity.
Qed.

(** C4 (as amended).  [PaginationFromRequest] returns the no-op modifier
    and no error when [page[number]] or [page[size]] is absent or has an
    empty first value; a [strconv] parse error, with a nil modifier, when
    both are non-empty and one of them is not an integer; and, when both
    are integers and the size is outside [[MinPageSize, MaxPageSize]], an
    error whose operands are the two configured bounds. *)
Theorem Pagination_outcomes (r : Request) :
  (URL_Query r !! "page[number]" = None \/ URL_Query r !! "page[size]" = None
   \/ Get (URL_Query r) "page[number]" = "" \/ Get (URL_Query r) "page[size]" = "" ->
   PaginationFromRequest (V := V) cfg r = (Some nop, None))
  /\ (Get (URL_Query r) "page[number]" <> "" ->
      Get (URL_Query r) "page[size]" <> "" ->
      (forall n, strconv.Atoi (Get (URL_Query r) "page[number]") <> Ok n)
      \/ (forall n, strconv.Atoi (Get (URL_Query r) "page[size]") <> Ok n) ->
      exists num kind,
        PaginationFromRequest (V := V) cfg r = (None, Some (NumError "Atoi" num kind))
        /\ (num = Get (URL_Query r) "page[number]"
            \/ num = Get (URL_Query r) "page[size]"))
  /\ (forall number size,
        strconv.Atoi (Get (URL_Query r) "page[number]") = Ok number ->
        strconv.Atoi (Get (URL_Query r) "page[size]") = Ok size ->
        size < MinPageSize cfg \/ MaxPageSize cfg < size ->
        PaginationFromRequest (V := V) cfg r
        = (None,
           Some (Errorf "invalid pagesize not between min. and max. value, min: %d, max: %d"
                   [ArgInt (MinPageSize cfg); ArgInt (MaxPageSize cfg)]))).
Proof.
  split; [|split].
  - intros H. apply Pagination_nop.
    destruct H as [H | [H | [H | H]]]; auto using Get_absent.
  - intros H1 H2 Hbad.
    destruct (strconv.Atoi (Get (URL_Query r) "page[number]")) as [number|e] eqn:Hn.
    + destruct (strconv.Atoi (Get (URL_Query r) "page[size]")) as [size|e] eqn:Hs.
      * destruct Hbad as [Hbad | Hbad]; [destruct (Hbad number) | destruct (Hbad size)];
          reflexivity.
      * destruct (Atoi_Err _ _ Hs) as [kind ->].
        exists (Get (URL_Query r) "page[size]"), kind. split; [|auto].
        eapply Pagination_bad_size; eauto.
    + destruct (Atoi_Err _ _ Hn) as [kind ->].
      exists (Get (URL_Query r) "page[number]"), kind. split; [|auto].
      apply Pagination_bad_number; auto.
  - intros number size. apply Pagination_out_of_bounds.
Qed.


End PaginationClaims.

(** [?page[number]=2&page[size]=10] gives offset 19 and limit 10. *)
Lemma Pagination_offset_limit_example :
  exists m : Query string -> outcome string,
    PaginationFromRequest defaultConfig pageTwoOfTen = (Some m, None)
    /\ exists query',
         m [] = Returns query'
         /\ limitOf query' = Some 10
         /\ offsetOf query' = Some 19.
Proof.
  destruct (Pagination_offset_limit (V := string) defaultConfig pageTwoOfTen 2 10)
    as (m & Hm & Hq).
  - vm_compute. reflexivity.
  - vm_compute. reflexivity.
  - simpl. lia.
  - exists m. split; [exact Hm|].
    destruct (Hq []) as (query' & Hret & Hlimit & _ & _ & Hoffset).
    exists query'. split; [exact Hret|]. split; [exact Hlimit|].
    apply Hoffset; [lia | vm_compute; split; discriminate].
Defined.

(** C3, as stated, fails once [size * number - 1] leaves the range of
    [int]: with [page[number] = 2^62] and [page[size] = 4] the product
    wraps to [0] and the offset set is [-1]. *)
Lemma Pagination_offset_overflow :
  strconv.Atoi (Get (URL_Query hugePage) "page[number]") = Ok 4611686018427387904
  /\ strconv.Atoi (Get (URL_Query hugePage) "page[size]") = Ok 4
  /\ MinPageSize defaultConfig <= 4 <= MaxPageSize defaultConfig
  /\ exists m : Query string -> outcome string,
       PaginationFromRequest defaultConfig hugePage = (Some m, None)
       /\ m [] = Returns [Offset (-1); Limit 4]
       /\ offsetOf (V := string) [Offset (-1); Limit 4]
          <> Some (4 * 4611686018427387904 - 1).
Proof.
  split; [vm_compute; reflexivity|].
  split; [vm_compute; reflexivity|].
  split; [simpl; lia|].
  eexists. split; [vm_compute; reflexivity|].
  split; [vm_compute; reflexivity|].
  vm_compute. discriminate.
Qed.

(** The three outcomes of C4 on [?page[size]=10],
    [?page[number]=1&page[size]=abc] and [?page[number]=1&page[size]=101]. *)
Lemma Pagination_outcomes_example :
  PaginationFromRequest (V := string) defaultConfig noPageNumber = (Some nop, None)
  /\ (exists num kind,
        PaginationFromRequest (V := string) defaultConfig badPageSize
        = (None, Some (NumError "Atoi" num kind))
        /\ (num = Get (URL_Query badPageSize) "page[number]"
            \/ num = Get (URL_Query badPageSize) "page[size]"))
  /\ PaginationFromRequest (V := string) defaultConfig largePageSize
     = (None,
        Some (Errorf "invalid pagesize not between min. and max. value, min: %d, max: %d"
                [ArgInt 1; ArgInt 100])).
Proof.
  split; [|split].
  - apply (Pagination_outcomes (V := string) defaultConfig noPageNumber).
    left. vm_compute. reflexivity.
  - apply (Pagination_outcomes (V := string) defaultConfig badPageSize).
    + vm_compute. discriminate.
    + vm_compute. discriminate.
    + right. intros n. vm_compute. discriminate.
  - apply (proj2 (proj2 (Pagination_outcomes (V := string) defaultConfig largePageSize))
             1 101).
    + vm_compute. reflexivity.
    + vm_compute. reflexivity.
    + right. simpl. lia.
Defined.

(** C4, as stated, fails for a parameter that is present with an empty
    value: [?page[number]=&page[size]=10] carries both parameters, the
    first is not an integer, and the result is the no-op without error. *)
Lemma Pagination_empty_value_is_no_error :
  URL_Query emptyPageNumber !! "page[number]" = Some [""]
  /\ URL_Query emptyPageNumber !! "page[size]" = Some ["10"]
  /\ (forall n, strconv.Atoi (Get (URL_Query emptyPageNumber) "page[number]") <> Ok n)
  /\ PaginationFromRequest (V := string) defaultConfig emptyPageNumber = (Some nop, None).
Proof.
  split; [vm_compute; reflexivity|].
  split; [vm_compute; reflexivity|].
  split; [intros n; vm_compute; discriminate|].
  vm_compute. reflexivity.
Qed.



(** ** Sorting: clauses and the aggregated error *)

Lemma filter_all {A} (f : A -> bool) (l : list A) :
  (forall x, x ∈ l -> f x = true) ->
  List.filter f l = l /\ List.filter (fun x => negb (f x)) l = [].
Proof.
  induction l as [|x l IH]; intros Hall; [split; reflexivity|].
  destruct IH as [IH1 IH2]; [intros y Hy; apply Hall, elem_of_cons; auto|].
  simpl. rewrite (Hall x) by (apply elem_of_cons; auto). simpl.
  rewrite IH1, IH2. split; reflexivity.
Qed.

Lemma filter_some {A} (f : A -> bool) (l : list A) (x : A) :
  x ∈ l -> f x = true -> x ∈ List.filter f l.
Proof.
  intros Hin Hf. apply list_elem_of_In, List.filter_In.
  split; [apply list_elem_of_In; exact Hin | exact Hf].
Qed.

Section SortingClaims.

Context {V M : Type} `{!ColumnMapper M}.

(** C6.  When the mapper accepts every non-empty token of the [sort]
    parameter (each without its leading [-]), [SortingFromRequest]
    returns no error and a modifier that appends one [Order] clause per
    non-empty token, in the order of the tokens: the mapped column
    followed by [" DESC"] for a token that starts with [-], and by
    [" ASC"] otherwise. *)
Theorem Sorting_all_mapped (r : Request) (modelMapping : M) :
  (forall val, val ∈ sortTokens (Get (URL_Query r) "sort") ->
               (Map modelMapping (strings.TrimPrefix val "-")).2 = true) ->
  exists m : Query V -> outcome V,
    SortingFromRequest r modelMapping = (Some m, None)
    /\ forall query,
         m query
         = Returns
             (query
              ++ map (fun val =>
                        Order ((Map modelMapping (strings.TrimPrefix val "-")).1
                               +:+ (if strings.HasPrefix val "-" then " DESC" else " ASC")))
                   (sortTokens (Get (URL_Query r) "sort"))).
Proof.
  intros Hall.
  destruct (Sorting_result (V := V) r modelMapping) as (m & Hm & Hq).
  destruct (filter_all (sortAccepted modelMapping)
              (sortTokens (Get (URL_Query r) "sort")) Hall) as [Hacc Hrej].
  rewrite Hrej in Hm. rewrite Hacc in Hq.
  exists m. split; [exact Hm|]. intros query.
  rewrite Hq, map_map. reflexivity.
Qed.

(** C7.  When the mapper rejects at least one non-empty token of the
    [sort] parameter, [SortingFromRequest] returns an error whose operand
    is the comma-joined list of all rejected tokens (without their
    leading [-]), together with a modifier that appends the [Order]
    clauses of the accepted tokens. *)
Theorem Sorting_some_unmapped (r : Request) (modelMapping : M) (bad : string) :
  bad ∈ sortTokens (Get (URL_Query r) "sort") ->
  (Map modelMapping (strings.TrimPrefix bad "-")).2 = false ->
  let tokens := sortTokens (Get (URL_Query r) "sort") in
  let invalid :=
    map (fun val => strings.TrimPrefix val "-")
      (List.filter
         (fun val => negb (Map modelMapping (strings.TrimPrefix val "-")).2) tokens) in
  exists m : Query V -> outcome V,
    SortingFromRequest r modelMapping
    = (Some m,
       Some (Errorf "at least one sorting parameter is not valid: %q"
               [ArgStr (strings.Join invalid ",")]))
    /\ strings.TrimPrefix bad "-" ∈ invalid
    /\ forall query,
         m query
         = Returns
             (query
              ++ map (fun val =>
                        Order ((Map modelMapping (strings.TrimPrefix val "-")).1
                               +:+ (if strings.HasPrefix val "-" then " DESC" else " ASC")))
                   (List.filter
                      (fun val => (Map modelMapping (strings.TrimPrefix val "-")).2)
                      tokens)).
Proof.
  intros Hin Hbad tokens invalid.
  destruct (Sorting_result (V := V) r modelMapping) as (m & Hm & Hq).
  assert (Hmem : strings.TrimPrefix bad "-" ∈ invalid).
  { apply list_elem_of_fmap. exists bad. split; [reflexivity|].
    apply filter_some; [exact Hin|]. rewrite Hbad. reflexivity. }
  exists m. split; [|split; [exact Hmem|]].
  - rewrite Hm. fold tokens. change (map sortName _) with invalid.
    destruct invalid as [|i invalid']; [inversion Hmem | reflexivity].
  - intros query. rewrite Hq, map_map. reflexivity.
Qed.

End SortingClaims.

(** [?sort=-name,age] with [name -> col_name], [age -> col_age]. *)
Lemma Sorting_all_mapped_example :
  exists m : Query string -> outcome string,
    SortingFromRequest sortNameAge exampleMapper = (Some m, None)
    /\ m [] = Returns [Order "col_name DESC"; Order "col_age ASC"].
Proof.
  destruct (Sorting_all_mapped (V := string) sortNameAge exampleMapper) as (m & Hm & Hq).
  - intros val Hval. vm_compute in Hval.
    apply elem_of_cons in Hval as [-> | Hval]; [vm_compute; reflexivity|].
    apply elem_of_cons in Hval as [-> | Hval]; [vm_compute; reflexivity|].
    inversion Hval.
  - exists m. split; [exact Hm|]. rewrite Hq. vm_compute. reflexivity.
Defined.

(** [?sort=-name,bogus] with [bogus] unmapped. *)
Lemma Sorting_some_unmapped_example :
  exists m : Query string -> outcome string,
    SortingFromRequest sortNameBogus exampleMapper
    = (Some m,
       Some (Errorf "at least one sorting parameter is not valid: %q" [ArgStr "bogus"]))
    /\ m [] = Returns [Order "col_name DESC"].
Proof.
  destruct (Sorting_some_unmapped (V := string) sortNameBogus exampleMapper "bogus")
    as (m & Hm & _ & Hq).
  - vm_compute. apply elem_of_cons. right. apply elem_of_cons. left. reflexivity.
  - vm_compute. reflexivity.
  - exists m. split; [rewrite Hm; vm_compute; reflexivity|].
    rewrite Hq. vm_compute. reflexivity.
Defined.

(** ** Filtering: predicates and invalid parameters *)

Lemma enumOrder_perm (A : Type) (m : gmap string A) : enumOrder A m ≡ₚ map_to_list m.
Proof. reflexivity. Defined.

Section FilterClaims.

Context {V M S : Type} `{!ColumnMapper M} `{!ValueSanitizer S V}.

Variable rangeOrder : forall A : Type, gmap string A -> list (string * A).

Hypothesis rangeOrder_perm :
  forall (A : Type) (m : gmap string A), rangeOrder A m ≡ₚ map_to_list m.

(** The entries of [filter] are the parameters of the request that were
    mapped and fully sanitized. *)
Lemma parseFilter_sound (r : Request) (modelMapping : M) (sanitizer : S)
    (name : string) (vs : list V) :
  (parseFilter rangeOrder r modelMapping sanitizer).1 !! name = Some vs ->
  exists queryName queryValues,
    URL_Query r !! queryName = Some queryValues
    /\ isFilterParam queryName = true
    /\ getFilterKey queryName modelMapping = (name, true)
    /\ getFilterValues name queryValues sanitizer = (vs, true).
Proof.
  intros Hres. apply parse_loop_sound in Hres as [Hempty | ([qn qv] & Hin & He)].
  - simpl in Hempty. rewrite lookup_empty in Hempty. discriminate.
  - exists qn, qv. split; [|exact He].
    apply (rangeOrder_lookup rangeOrder rangeOrder_perm). exact Hin.
Qed.

(** A parameter that is mapped and fully sanitized, and is the only
    filter parameter of the request mapped to its column, is an entry of
    [filter]. *)
Lemma parseFilter_complete (r : Request) (modelMapping : M) (sanitizer : S)
    (queryName : string) (queryValues : list string) (name : string) (vs : list V) :
  URL_Query r !! queryName = Some queryValues ->
  isFilterParam queryName = true ->
  getFilterKey queryName modelMapping = (name, true) ->
  getFilterValues name queryValues sanitizer = (vs, true) ->
  (forall other, is_Some (URL_Query r !! other) -> isFilterParam other = true ->
                 getFilterKey other modelMapping = (name, true) -> other = queryName) ->
  (parseFilter rangeOrder r modelMapping sanitizer).1 !! name = Some vs.
Proof.
  intros Hq Hp Hk Hv Huniq.
  apply (parse_loop_complete _ _ _ _ (queryName, queryValues)); try assumption.
  - apply (rangeOrder_lookup rangeOrder rangeOrder_perm). exact Hq.
  - intros [other values] Hin Hp' Hk'.
    apply (rangeOrder_lookup rangeOrder rangeOrder_perm) in Hin. simpl in *.
    assert (other = queryName) as -> by (apply Huniq; eauto).
    congruence.
Qed.

(** [invalidFilter], for any request. *)
Lemma parseFilter_invalid (r : Request) (modelMapping : M) (sanitizer : S) :
  (parseFilter (V := V) rangeOrder r modelMapping sanitizer).2
  = flat_map (invalidName (V := V) modelMapping sanitizer)
      (rangeOrder _ (URL_Query r)).
Proof. unfold parseFilter. rewrite parse_loop_invalid. reflexivity. Qed.

(** A request without filter parameters: nothing parsed, nothing invalid. *)
Lemma parseFilter_no_params (r : Request) (modelMapping : M) (sanitizer : S) :
  (forall queryName, is_Some (URL_Query r !! queryName) ->
                     isFilterParam queryName = false) ->
  parseFilter (V := V) rangeOrder r modelMapping sanitizer = (∅, []).
Proof.
  intros Hnone. unfold parseFilter.
  assert (Hall : forall entry, entry ∈ rangeOrder _ (URL_Query r) ->
                               isFilterParam entry.1 = false).
  { intros [qn qv] Hin. apply Hnone. exists qv.
    apply (rangeOrder_lookup rangeOrder rangeOrder_perm). exact Hin. }
  revert Hall. generalize (rangeOrder _ (URL_Query r)).
  intros l. induction l as [|entry l IH]; intros Hall; [reflexivity|].
  cbn [fold_left]. rewrite filterStep_skip by (apply Hall, elem_of_cons; auto).
  apply IH. intros e He. apply Hall, elem_of_cons. auto.
Qed.

(** The predicates per column of the [filter] map.  The modifier of
    [FilterFromRequest] appends a fixed list of effects, and for every
    column [name] the predicates it puts on that column are: the one
    equality [name = ?] on the value when the [filter] map holds exactly
    one value for [name]; the one membership
    [name IN (?)] over all the values when it holds more than one; none
    when it holds no value or has no entry for [name].  The entries of the
    [filter] map are the request's filter parameters that were mapped and
    whose values were all sanitized. *)
Theorem Filter_predicates (r : Request) (modelMapping : M) (sanitizer : S) :
  exists (m : Query V -> outcome V) (added : list (effect V)),
    (FilterFromRequest rangeOrder r modelMapping sanitizer).1 = Some m
    /\ (forall query, m query = Returns (query ++ added))
    /\ (forall name,
          wheresOn name added
          = match (parseFilter rangeOrder r modelMapping sanitizer).1 !! name with
            | Some [v] => [Where (name +:+ " = ?") (Value v)]
            | Some (v :: v' :: vs) => [Where (name +:+ " IN (?)") (In (v :: v' :: vs))]
            | Some [] | None => []
            end)
    /\ (forall name vs,
          (parseFilter rangeOrder r modelMapping sanitizer).1 !! name = Some vs ->
          exists queryName queryValues,
            URL_Query r !! queryName = Some queryValues
            /\ isFilterParam queryName = true
            /\ getFilterKey queryName modelMapping = (name, true)
            /\ getFilterValues name queryValues sanitizer = (vs, true)).
Proof.
  destruct (Filter_result rangeOrder r modelMapping sanitizer) as (m & Hm & Hq).
  exists m. eexists. split; [rewrite Hm; reflexivity|].
  split; [exact Hq|]. split; [|apply parseFilter_sound].
  intros name.
  set (filter := (parseFilter rangeOrder r modelMapping sanitizer).1).
  destruct (wheresOn_entries name (rangeOrder _ filter)) as [Hin Hout];
    [apply (rangeOrder_NoDup rangeOrder rangeOrder_perm)|].
  destruct (filter !! name) as [vs|] eqn:Hlook.
  - rewrite (Hin vs)
      by (apply (rangeOrder_lookup rangeOrder rangeOrder_perm); exact Hlook).
    rewrite wheresOn_filterEffects. simpl.
    rewrite bool_decide_eq_true_2 by reflexivity.
    destruct vs as [|v [|v' vs]]; reflexivity.
  - apply Hout, (rangeOrder_absent rangeOrder rangeOrder_perm). exact Hlook.
Qed.

End FilterClaims.

(** [?filter[color]=red,blue] gives [col_color IN (red, blue)], and
    [?filter[color]=red] gives [col_color = red]. *)
Lemma Filter_predicates_example :
  (exists (m : Query string -> outcome string) added,
     (FilterFromRequest enumOrder filterRedBlue exampleMapper nonEmpty).1 = Some m
     /\ m [] = Returns added
     /\ wheresOn "col_color" added = [Where "col_color IN (?)" (In ["red"; "blue"])])
  /\ (exists (m : Query string -> outcome string) added,
        (FilterFromRequest enumOrder filterRed exampleMapper nonEmpty).1 = Some m
        /\ m [] = Returns added
        /\ wheresOn "col_color" added = [Where "col_color = ?" (Value "red")]).
Proof.
  split.
  - destruct (Filter_predicates enumOrder enumOrder_perm filterRedBlue exampleMapper nonEmpty)
      as (m & added & Hm & Hq & Hw & _).
    exists m, added. split; [exact Hm|]. split; [apply Hq|].
    rewrite (Hw "col_color"). vm_compute. reflexivity.
  - destruct (Filter_predicates enumOrder enumOrder_perm filterRed exampleMapper nonEmpty)
      as (m & added & Hm & Hq & Hw & _).
    exists m, added. split; [exact Hm|]. split; [apply Hq|].
    rewrite (Hw "col_color"). vm_compute. reflexivity.
Defined.

(** [?filter[color]=red&filter[bad]=x] with [bad] unmapped: the error names
    [bad] and [col_color = red] is applied. *)
Example Filter_unmapped_field :
  exists m : Query string -> outcome string,
    FilterFromRequest enumOrder filterRedAndBad exampleMapper nonEmpty
    = (Some m,
       Some (Errorf "at least one filter parameter is not valid: %q" [ArgStr "bad"]))
    /\ m [] = Returns [Where "col_color = ?" (Value "red");
                       Printf "%s = %s" "col_color" "red"].
Proof.
  eexists. split; [vm_compute; reflexivity|]. vm_compute. reflexivity.
Qed.

(** C9, at the input where the code departs from it.  For
    [?filter[color]=red,] with [color -> col_color] and a sanitizer that
    refuses the empty second value, the whole key is dropped (the modifier
    adds nothing), but the name put in the error is the mapped column
    [col_color], not the field [color] of the request. *)
Theorem Filter_error_names_the_column :
  getFilterKey "filter[color]" exampleMapper = ("col_color", true)
  /\ getFilterValues "col_color" ["red,"] nonEmpty = ([], false)
  /\ exists m : Query string -> outcome string,
       FilterFromRequest enumOrder filterRedEmpty exampleMapper nonEmpty
       = (Some m,
          Some (Errorf "at least one filter parameter is not valid: %q"
                  [ArgStr "col_color"]))
       /\ m [] = Returns [].
Proof.
  split; [vm_compute; reflexivity|].
  split; [vm_compute; reflexivity|].
  eexists. split; [vm_compute; reflexivity|]. vm_compute. reflexivity.
Qed.

(** ** The composer *)

Section ComposerClaims.

Context {V M S : Type} `{!ColumnMapper M} `{!ValueSanitizer S V}.

Variable cfg : config.
Variable rangeOrder : forall A : Type, gmap string A -> list (string * A).

Hypothesis rangeOrder_perm :
  forall (A : Type) (m : gmap string A), rangeOrder A m ≡ₚ map_to_list m.

(** An error of the sorting parser ends the composition: the result is
    that error alone, whatever the other two parsers would have said. *)
Lemma Composer_aborts_on_sorting_error (r : Request) (modelMapping : M)
    (sanitizer : S) (e : error) :
  (SortingFromRequest (V := V) r modelMapping).2 = Some e ->
  FilterPagingSortingFromRequest (V := V) cfg rangeOrder r modelMapping sanitizer
  = (None, Some e).
Proof.
  intros He.
  destruct (Sorting_result (V := V) r modelMapping) as (m & Hm & _).
  unfold FilterPagingSortingFromRequest. rewrite Hm in He |- *.
  simpl in He. rewrite He. reflexivity.
Qed.

(** A failure of the pagination parser comes with a nil option, which
    the guard [err != nil && paginationOption != nil] lets through: when
    the filter parser then succeeds the composition returns no error, and
    a modifier that panics on the nil option. *)
Lemma Composer_nil_pagination (r : Request) (modelMapping : M) (sanitizer : S)
    (sortingOption filterOption : QueryOption V) (e : error) :
  SortingFromRequest r modelMapping = (sortingOption, None) ->
  PaginationFromRequest (V := V) cfg r = (None, Some e) ->
  FilterFromRequest rangeOrder r modelMapping sanitizer = (filterOption, None) ->
  exists m : Query V -> outcome V,
    FilterPagingSortingFromRequest cfg rangeOrder r modelMapping sanitizer
    = (Some m, None)
    /\ forall query, exists query', m query = Panics query'.
Proof.
  intros Hs Hp Hf. unfold FilterPagingSortingFromRequest.
  rewrite Hs, Hp, Hf. simpl. eexists. split; [reflexivity|].
  intros query. cbv beta.
  destruct (call sortingOption query) as [q1|q1]; simpl; [|eauto].
  destruct (call filterOption q1) as [q2|q2]; simpl; eauto.
Qed.

(** C2.  There is a request on which sorting and filtering succeed and
    pagination fails ([?page[number]=1&page[size]=abc]), for which the
    composer returns a nil error and a modifier, and that modifier panics
    on every query: it calls the nil option that [PaginationFromRequest]
    returned with its error. *)
Theorem Composer_drops_pagination_error (modelMapping : M) (sanitizer : S) :
  exists r : Request,
    (exists mS, SortingFromRequest (V := V) r modelMapping = (Some mS, None))
    /\ (exists mF, FilterFromRequest (V := V) rangeOrder r modelMapping sanitizer
                   = (Some mF, None))
    /\ (exists e, PaginationFromRequest (V := V) cfg r = (None, Some e))
    /\ exists m : Query V -> outcome V,
         FilterPagingSortingFromRequest cfg rangeOrder r modelMapping sanitizer
         = (Some m, None)
         /\ forall query, exists query', m query = Panics query'.
Proof.
  exists badPageSize.
  assert (HS : SortingFromRequest (V := V) badPageSize modelMapping = (Some nop, None))
    by reflexivity.
  assert (HP : PaginationFromRequest (V := V) cfg badPageSize
               = (None, Some (NumError "Atoi" "abc" ErrSyntax)))
    by reflexivity.
  destruct (Filter_result (V := V) rangeOrder badPageSize modelMapping sanitizer)
    as (mF & HF & _).
  rewrite (parseFilter_no_params rangeOrder rangeOrder_perm) in HF.
  - simpl in HF. repeat split; eauto.
    eapply Composer_nil_pagination; eauto.
  - intros queryName [values Hq]. unfold badPageSize, request in Hq. simpl in Hq.
    apply lookup_insert_Some in Hq as [[<- _] | [_ Hq]]; [reflexivity|].
    apply lookup_insert_Some in Hq as [[<- _] | [_ Hq]]; [reflexivity|].
    rewrite lookup_empty in Hq. discriminate.
Qed.

(** C10.  When the three parsers succeed, the composed modifier applied
    to a query yields that query followed by what the sorting modifier
    adds, then what the filtering modifier adds, then what the pagination
    modifier adds. *)
Theorem Composer_apply_order (r : Request) (modelMapping : M) (sanitizer : S)
    (sortingOption paginationOption filterOption : QueryOption V) :
  SortingFromRequest r modelMapping = (sortingOption, None) ->
  PaginationFromRequest cfg r = (paginationOption, None) ->
  FilterFromRequest rangeOrder r modelMapping sanitizer = (filterOption, None) ->
  exists (m : Query V -> outcome V) (sorted filtered paged : list (effect V)),
    FilterPagingSortingFromRequest cfg rangeOrder r modelMapping sanitizer
    = (Some m, None)
    /\ (forall query, call sortingOption query = Returns (query ++ sorted))
    /\ (forall query, call filterOption query = Returns (query ++ filtered))
    /\ (forall query, call paginationOption query = Returns (query ++ paged))
    /\ (forall query, m query = Returns (query ++ sorted ++ filtered ++ paged))
    /\ Forall (fun e => exists s, e = Order s) sorted
    /\ Forall (fun e => (exists c p, e = Where c p) \/ exists f n v, e = Printf f n v)
         filtered
    /\ Forall (fun e => (exists n, e = Offset n) \/ exists n, e = Limit n) paged.
Proof.
  intros Hs Hp Hf.
  destruct (Sorting_result (V := V) r modelMapping) as (mS & HmS & HqS).
  destruct (Filter_result rangeOrder r modelMapping sanitizer) as (mF & HmF & HqF).
  rewrite Hs in HmS. injection HmS as -> _.
  rewrite Hf in HmF. injection HmF as -> _.
  assert (Hpaged : exists paged,
             (forall query, call paginationOption query = Returns (query ++ paged))
             /\ Forall (fun e : effect V =>
                          (exists n, e = Offset n) \/ exists n, e = Limit n) paged).
  { destruct (Pagination_result (V := V) cfg r)
      as [Hnop | [[e He] | (number & size & m' & _ & _ & _ & Hm' & Hq)]].
    - rewrite Hp in Hnop. injection Hnop as ->. exists []. split; [|constructor].
      intros query. rewrite app_nil_r. reflexivity.
    - rewrite Hp in He. discriminate He.
    - rewrite Hp in Hm'. injection Hm' as ->. eexists. split; [exact Hq|].
      constructor; [left; eauto | constructor; [right; eauto | constructor]]. }
  destruct Hpaged as (paged & HqP & Hkinds).
  eexists. exists (map Order
    (map (sortClause modelMapping)
       (List.filter (sortAccepted modelMapping)
          (sortTokens (Get (URL_Query r) "sort"))))).
  exists (flat_map filterEffects
    (rangeOrder _ (parseFilter rangeOrder r modelMapping sanitizer).1)).
  exists paged.
  split; [unfold FilterPagingSortingFromRequest; rewrite Hs, Hp, Hf;
          destruct paginationOption; reflexivity|].
  split; [exact HqS|]. split; [exact HqF|]. split; [exact HqP|].
  split; [|split; [|split; [|exact Hkinds]]].
  - intros query. cbv beta. rewrite HqS. simpl andThen.
    rewrite HqF. simpl andThen. rewrite HqP, <- !app_assoc. reflexivity.
  - apply Forall_forall. intros e He.
    apply list_elem_of_fmap in He as (s & -> & _). eauto.
  - apply Forall_forall. intros e He.
    apply list_elem_of_In, in_flat_map in He as ([name vs] & _ & He).
    unfold filterEffects in He. simpl in He.
    destruct vs as [|v [|v' vs]]; simpl in He;
      [contradiction | destruct He as [<- | [<- | []]] | destruct He as [<- | []]];
      eauto 6.
Qed.

End ComposerClaims.

(** [?sort=bogus&filter[color]=red]: only the sorting error comes back. *)
Example Composer_sorting_error_only :
  FilterPagingSortingFromRequest (V := string) defaultConfig enumOrder
    sortBogusFilterRed exampleMapper nonEmpty
  = (None,
     Some (Errorf "at least one sorting parameter is not valid: %q" [ArgStr "bogus"])).
Proof.
  apply Composer_aborts_on_sorting_error. vm_compute. reflexivity.
Qed.

(** C1, at the inputs where the code departs from it.  The pagination
    parser fails on [page[size]=abc], yet the composition goes on to the
    filter parser: with a valid filter it returns no error at all and a
    modifier that applies the filter and then panics; with an invalid
    filter it returns the filter error, not the pagination error. *)
Theorem Composer_pagination_error_not_returned :
  PaginationFromRequest (V := string) defaultConfig badPageSizeFilterRed
  = (None, Some (NumError "Atoi" "abc" ErrSyntax))
  /\ (exists m : Query string -> outcome string,
        FilterPagingSortingFromRequest defaultConfig enumOrder
          badPageSizeFilterRed exampleMapper nonEmpty
        = (Some m, None)
        /\ m [] = Panics [Where "col_color = ?" (Value "red");
                          Printf "%s = %s" "col_color" "red"])
  /\ PaginationFromRequest (V := string) defaultConfig badPageSizeFilterBad
     = (None, Some (NumError "Atoi" "abc" ErrSyntax))
  /\ FilterPagingSortingFromRequest (V := string) defaultConfig enumOrder
       badPageSizeFilterBad exampleMapper nonEmpty
     = (None,
        Some (Errorf "at least one filter parameter is not valid: %q" [ArgStr "bad"])).
Proof.
  split; [vm_compute; reflexivity|].
  split; [eexists; split; vm_compute; reflexivity|].
  split; vm_compute; reflexivity.
Qed.

(** The request of C2 with the example API and the default bounds. *)
Lemma Composer_drops_pagination_error_example :
  exists r : Request,
    (exists mS, SortingFromRequest (V := string) r exampleMapper = (Some mS, None))
    /\ (exists mF, FilterFromRequest (V := string) enumOrder r exampleMapper nonEmpty
                   = (Some mF, None))
    /\ (exists e, PaginationFromRequest (V := string) defaultConfig r = (None, Some e))
    /\ exists m : Query string -> outcome string,
         FilterPagingSortingFromRequest defaultConfig enumOrder r exampleMapper nonEmpty
         = (Some m, None)
         /\ forall query, exists query', m query = Panics query'.
Proof.
  exact (Composer_drops_pagination_error (V := string) defaultConfig enumOrder
           enumOrder_perm exampleMapper nonEmpty).
Defined.

(** [?sort=age&filter[color]=red&page[number]=1&page[size]=5]: the order
    clause, then the predicate, then offset and limit. *)
Lemma Composer_apply_order_example :
  exists m : Query string -> outcome string,
    FilterPagingSortingFromRequest defaultConfig enumOrder
      sortFilterPage exampleMapper nonEmpty
    = (Some m, None)
    /\ m [] = Returns [Order "col_age ASC";
                       Where "col_color = ?" (Value "red");
                       Printf "%s = %s" "col_color" "red";
                       Offset 4; Limit 5].
Proof.
  edestruct (Composer_apply_order (V := string) defaultConfig enumOrder
               sortFilterPage exampleMapper nonEmpty)
    as (m & sorted & filtered & paged & Hm & HS & HF & HP & Hall & _).
  - vm_compute. reflexivity.
  - vm_compute. reflexivity.
  - vm_compute. reflexivity.
  - exists m. split; [exact Hm|].
    pose proof (HS []) as HS0. vm_compute in HS0. injection HS0 as <-.
    pose proof (HF []) as HF0. vm_compute in HF0. injection HF0 as <-.
    pose proof (HP []) as HP0. vm_compute in HP0. injection HP0 as <-.
    rewrite Hall. reflexivity.
Defined.

(** * Further properties of the parsers *)

(** ** Pagination: results, bounds and page layout *)

Section OffsetLimitFacts.

Context {V : Type}.

Lemma offsetOf_untouched (q added : Query V) :
  Forall (fun e => forall n, e <> Offset n) added ->
  offsetOf (q ++ added) = offsetOf q.
Proof.
  intros Hno.
  assert (Hadded : offsetOf added = None).
  { induction Hno as [|e added He _ IH]; [reflexivity|].
    simpl. rewrite IH. destruct e; try reflexivity. destruct (He n). reflexivity. }
  induction q as [|e q IH]; simpl.
  - exact Hadded.
  - rewrite IH. reflexivity.
Qed.

Lemma limitOf_untouched (q added : Query V) :
  Forall (fun e => forall n, e <> Limit n) added ->
  limitOf (q ++ added) = limitOf q.
Proof.
  intros Hno.
  assert (Hadded : limitOf added = None).
  { induction Hno as [|e added He _ IH]; [reflexivity|].
    simpl. rewrite IH. destruct e; try reflexivity. destruct (He n). reflexivity. }
  induction q as [|e q IH]; simpl.
  - exact Hadded.
  - rewrite IH. reflexivity.
Qed.

Lemma offsetOf_paged (q : Query V) (offset size : Z) :
  offsetOf (q ++ [Offset offset; Limit size]) = Some offset.
Proof.
  change (q ++ [Offset offset; Limit size])
    with (q ++ [Offset (V := V) offset] ++ [Limit size]).
  rewrite app_assoc, offsetOf_snoc_Limit, offsetOf_snoc_Offset. reflexivity.
Qed.

Lemma limitOf_paged (q : Query V) (offset size : Z) :
  limitOf (q ++ [Offset offset; Limit size]) = Some size.
Proof.
  change (q ++ [Offset offset; Limit size])
    with (q ++ [Offset (V := V) offset] ++ [Limit size]).
  rewrite app_assoc, limitOf_snoc_Limit. reflexivity.
Qed.

End OffsetLimitFacts.

Section PaginationExtras.

Context {V : Type}.
Variable cfg : config.

(** X1.  [PaginationFromRequest] returns a modifier or an error, never
    both and never neither; a modifier it returns does not panic. *)
Theorem Pagination_modifier_or_error (r : Request) :
  (exists m : Query V -> outcome V,
     PaginationFromRequest cfg r = (Some m, None)
     /\ forall query, exists query', m query = Returns query')
  \/ (exists e, PaginationFromRequest (V := V) cfg r = (None, Some e)).
Proof.
  destruct (Pagination_result (V := V) cfg r)
    as [Hnop | [[e He] | (number & size & m & _ & _ & _ & Hm & Hq)]].
  - left. exists nop. split; [exact Hnop|]. intros query. exists query. reflexivity.
  - right. exists e. exact He.
  - left. exists m. split; [exact Hm|]. intros query. eexists. apply Hq.
Qed.

(** X2.  [PaginationFromRequest] fails exactly when both parameters have a
    non-empty value and they are not two integers with the size within the
    configured bounds. *)
Theorem Pagination_error_iff (r : Request) :
  (exists e, (PaginationFromRequest (V := V) cfg r).2 = Some e)
  <-> Get (URL_Query r) "page[number]" <> ""
      /\ Get (URL_Query r) "page[size]" <> ""
      /\ forall number size,
           strconv.Atoi (Get (URL_Query r) "page[number]") = Ok number ->
           strconv.Atoi (Get (URL_Query r) "page[size]") = Ok size ->
           size < MinPageSize cfg \/ MaxPageSize cfg < size.
Proof.
  split.
  - intros [e He]. repeat split.
    + intros Hempty. rewrite Pagination_nop in He by auto. discriminate He.
    + intros Hempty. rewrite Pagination_nop in He by auto. discriminate He.
    + intros number size Hn Hs.
      destruct (Z_lt_dec size (MinPageSize cfg)) as [|Hlo]; [auto|].
      destruct (Z_lt_dec (MaxPageSize cfg) size) as [|Hhi]; [auto|].
      destruct (Pagination_in_bounds (V := V) cfg r number size Hn Hs) as (m & Hm & _);
        [lia|]. rewrite Hm in He. discriminate He.
  - intros (H1 & H2 & Hbounds).
    destruct (strconv.Atoi (Get (URL_Query r) "page[number]")) as [number|e] eqn:Hn;
      [|exists e; rewrite (Pagination_bad_number cfg r e) by assumption; reflexivity].
    destruct (strconv.Atoi (Get (URL_Query r) "page[size]")) as [size|e] eqn:Hs;
      [|exists e; rewrite (Pagination_bad_size cfg r number e) by assumption; reflexivity].
    pose proof (Hbounds number size eq_refl eq_refl) as Hout.
    eexists.
    rewrite (Pagination_out_of_bounds cfg r number size) by assumption. reflexivity.
Qed.

(** X3.  The configuration is not checked: when [MaxPageSize] is below
    [MinPageSize] no page size passes, and every request that gives both
    parameters a value gets an error. *)
Theorem Pagination_inverted_bounds (r : Request) :
  MaxPageSize cfg < MinPageSize cfg ->
  Get (URL_Query r) "page[number]" <> "" ->
  Get (URL_Query r) "page[size]" <> "" ->
  exists e, PaginationFromRequest (V := V) cfg r = (None, Some e).
Proof.
  intros Hinv H1 H2.
  destruct (strconv.Atoi (Get (URL_Query r) "page[number]")) as [number|e] eqn:Hn;
    [|exists e; apply Pagination_bad_number; assumption].
  destruct (strconv.Atoi (Get (URL_Query r) "page[size]")) as [size|e] eqn:Hs;
    [|exists e; apply (Pagination_bad_size cfg r number e); assumption].
  eexists. apply (Pagination_out_of_bounds cfg r number size); try assumption. lia.
Qed.

(** X4.  From page 1 on, consecutive pages of one size follow each other
    without gap or overlap: the offset of page [number + 1] is the offset
    of page [number] plus the size (as long as it fits [int]). *)
Theorem Pagination_pages_follow (r r' : Request) (number size : Z) :
  strconv.Atoi (Get (URL_Query r) "page[number]") = Ok number ->
  strconv.Atoi (Get (URL_Query r') "page[number]") = Ok (number + 1) ->
  strconv.Atoi (Get (URL_Query r) "page[size]") = Ok size ->
  strconv.Atoi (Get (URL_Query r') "page[size]") = Ok size ->
  MinPageSize cfg <= size <= MaxPageSize cfg ->
  1 <= number -> 1 <= size -> size * (number + 1) - 1 <= maxInt ->
  exists (m m' : Query V -> outcome V) (offset : Z),
    PaginationFromRequest cfg r = (Some m, None)
    /\ PaginationFromRequest cfg r' = (Some m', None)
    /\ (forall query, m query = Returns (query ++ [Offset offset; Limit size]))
    /\ (forall query, m' query = Returns (query ++ [Offset (offset + size); Limit size])).
Proof.
  intros Hn Hn' Hs Hs' Hb Hnum Hsize Hmax.
  destruct (Pagination_in_bounds (V := V) cfg r number size Hn Hs Hb) as (m & Hm & Hq).
  destruct (Pagination_in_bounds (V := V) cfg r' (number + 1) size Hn' Hs' Hb)
    as (m' & Hm' & Hq').
  exists m, m', (pageOffset size number).
  split; [exact Hm|]. split; [exact Hm'|]. split; [exact Hq|].
  intros query. rewrite Hq'. do 4 f_equal. unfold pageOffset.
  destruct (number =? 0) eqn:Hz; [apply Z.eqb_eq in Hz; lia|].
  destruct (number + 1 =? 0) eqn:Hz'; [apply Z.eqb_eq in Hz'; lia|].
  rewrite !int_sub_int_mul.
  assert (Hmin : minInt <= 0) by (vm_compute; discriminate).
  rewrite !wrapInt_inInt by (unfold inInt; nia). lia.
Qed.

(** X5.  Pages 0 and 1 overlap: page 0 starts at offset 0 and page 1 at
    [size - 1], so the last row of page 0 is the first row of page 1. *)
Theorem Pagination_first_pages_overlap (r r' : Request) (size : Z) :
  strconv.Atoi (Get (URL_Query r) "page[number]") = Ok 0 ->
  strconv.Atoi (Get (URL_Query r') "page[number]") = Ok 1 ->
  strconv.Atoi (Get (URL_Query r) "page[size]") = Ok size ->
  strconv.Atoi (Get (URL_Query r') "page[size]") = Ok size ->
  MinPageSize cfg <= size <= MaxPageSize cfg ->
  1 <= size <= maxInt ->
  exists m m' : Query V -> outcome V,
    PaginationFromRequest cfg r = (Some m, None)
    /\ PaginationFromRequest cfg r' = (Some m', None)
    /\ (forall query, m query = Returns (query ++ [Offset 0; Limit size]))
    /\ (forall query, m' query = Returns (query ++ [Offset (size - 1); Limit size])).
Proof.
  intros Hn Hn' Hs Hs' Hb Hsize.
  destruct (Pagination_in_bounds (V := V) cfg r 0 size Hn Hs Hb) as (m & Hm & Hq).
  destruct (Pagination_in_bounds (V := V) cfg r' 1 size Hn' Hs' Hb) as (m' & Hm' & Hq').
  exists m, m'. split; [exact Hm|]. split; [exact Hm'|]. split; [exact Hq|].
  intros query. rewrite Hq'. do 4 f_equal. unfold pageOffset. simpl Z.eqb.
  rewrite int_sub_int_mul.
  assert (Hmin : minInt <= 0) by (vm_compute; discriminate).
  rewrite wrapInt_inInt by (unfold inInt; lia). lia.
Qed.

(** X6.  Running a pagination modifier a second time on the query it
    returned changes neither the offset nor the limit of that query. *)
Theorem Pagination_twice (r : Request) (m : Query V -> outcome V)
    (query query' : Query V) :
  PaginationFromRequest cfg r = (Some m, None) ->
  m query = Returns query' ->
  exists query'',
    m query' = Returns query''
    /\ offsetOf query'' = offsetOf query'
    /\ limitOf query'' = limitOf query'.
Proof.
  intros Hm Hq1.
  destruct (Pagination_result (V := V) cfg r)
    as [Hnop | [[e He] | (number & size & m' & _ & _ & _ & Hm' & Hq)]].
  - rewrite Hnop in Hm. injection Hm as <-.
    exists query'. repeat split; reflexivity.
  - rewrite He in Hm. discriminate Hm.
  - rewrite Hm' in Hm. injection Hm as <-.
    rewrite Hq in Hq1. injection Hq1 as <-.
    eexists. split; [apply Hq|].
    rewrite !offsetOf_paged, !limitOf_paged. split; reflexivity.
Qed.

End PaginationExtras.

(** With bounds [5..1], [?page[number]=2&page[size]=10] is refused. *)
Lemma Pagination_inverted_bounds_example :
  exists e, PaginationFromRequest (V := string) invertedConfig pageTwoOfTen = (None, Some e).
Proof.
  apply (Pagination_inverted_bounds (V := string) invertedConfig pageTwoOfTen).
  - simpl. lia.
  - vm_compute. discriminate.
  - vm_compute. discriminate.
Defined.

(** Pages 2 and 3 of size 10 start at 19 and 29. *)
Lemma Pagination_pages_follow_example :
  exists (m m' : Query string -> outcome string) (offset : Z),
    PaginationFromRequest defaultConfig pageTwoOfTen = (Some m, None)
    /\ PaginationFromRequest defaultConfig pageThreeOfTen = (Some m', None)
    /\ (forall query, m query = Returns (query ++ [Offset offset; Limit 10]))
    /\ (forall query, m' query = Returns (query ++ [Offset (offset + 10); Limit 10])).
Proof.
  apply (Pagination_pages_follow (V := string) defaultConfig pageTwoOfTen pageThreeOfTen 2 10).
  - vm_compute. reflexivity.
  - vm_compute. reflexivity.
  - vm_compute. reflexivity.
  - vm_compute. reflexivity.
  - simpl. lia.
  - lia.
  - lia.
  - vm_compute. discriminate.
Defined.

(** Pages 0 and 1 of size 10 start at 0 and 9. *)
Lemma Pagination_first_pages_overlap_example :
  exists m m' : Query string -> outcome string,
    PaginationFromRequest defaultConfig pageZeroOfTen = (Some m, None)
    /\ PaginationFromRequest defaultConfig pageOneOfTen = (Some m', None)
    /\ (forall query, m query = Returns (query ++ [Offset 0; Limit 10]))
    /\ (forall query, m' query = Returns (query ++ [Offset (10 - 1); Limit 10])).
Proof.
  apply (Pagination_first_pages_overlap (V := string) defaultConfig
           pageZeroOfTen pageOneOfTen 10).
  - vm_compute. reflexivity.
  - vm_compute. reflexivity.
  - vm_compute. reflexivity.
  - vm_compute. reflexivity.
  - simpl. lia.
  - split; [lia | vm_compute; discriminate].
Defined.

(** [?page[number]=2&page[size]=10] applied twice to a query that had
    offset 7. *)
Lemma Pagination_twice_example :
  exists (m : Query string -> outcome string) query'',
    PaginationFromRequest defaultConfig pageTwoOfTen = (Some m, None)
    /\ m [Offset 7; Offset 19; Limit 10] = Returns query''
    /\ offsetOf query'' = Some 19
    /\ limitOf query'' = Some 10.
Proof.
  destruct (Pagination_in_bounds (V := string) defaultConfig pageTwoOfTen 2 10)
    as (m & Hm & Hq); [vm_compute; reflexivity | vm_compute; reflexivity | simpl; lia |].
  destruct (Pagination_twice (V := string) defaultConfig pageTwoOfTen m
              [Offset 7] [Offset 7; Offset 19; Limit 10] Hm)
    as (query'' & Hret & Hoff & Hlim).
  - rewrite Hq. reflexivity.
  - exists m, query''. split; [exact Hm|]. split; [exact Hret|].
    rewrite Hoff, Hlim. split; reflexivity.
Defined.

(** ** Sorting: what reaches the query *)

Lemma elem_of_sortTokens (sort val : string) :
  val ∈ sortTokens sort <-> val ∈ strings.Split sort "," /\ val <> "".
Proof.
  unfold sortTokens. rewrite !list_elem_of_In, List.filter_In, negb_true_iff.
  rewrite String.eqb_neq. reflexivity.
Qed.

Lemma filter_none {A} (f : A -> bool) (l : list A) :
  List.filter f l = [] <-> forall x, x ∈ l -> f x = false.
Proof.
  induction l as [|x l IH]; simpl.
  - split; [intros _ y Hy; inversion Hy | reflexivity].
  - destruct (f x) eqn:Hx.
    + split; [discriminate|]. intros Hall.
      rewrite (Hall x) in Hx by (apply elem_of_cons; auto). discriminate Hx.
    + rewrite IH. split.
      * intros Hall y Hy. apply elem_of_cons in Hy as [-> | Hy]; auto.
      * intros Hall y Hy. apply Hall, elem_of_cons. auto.
Qed.

Lemma MapMapper_accepts (tbl : gmap string string) (val : string) :
  sortAccepted (NewMapMapper tbl) val = true
  <-> is_Some (tbl !! strings.TrimPrefix val "-").
Proof.
  unfold sortAccepted, sortName, Map, MapMapper_Map, NewMapMapper. simpl.
  destruct (tbl !! strings.TrimPrefix val "-") as [col|]; simpl.
  - split; [eauto | reflexivity].
  - split; [discriminate | intros [col Hcol]; discriminate Hcol].
Qed.

Section SortingExtras.

Context {V M : Type} `{!ColumnMapper M}.

(** X7.  [SortingFromRequest] always returns a modifier, with or without
    an error; the modifier never panics, only appends [Order] calls, and
    leaves the offset and the limit of the query as they were. *)
Theorem Sorting_modifier_always (r : Request) (modelMapping : M) :
  exists (m : Query V -> outcome V) (added : list (effect V)),
    (SortingFromRequest r modelMapping).1 = Some m
    /\ (forall query, m query = Returns (query ++ added))
    /\ Forall (fun e => exists s, e = Order s) added
    /\ forall query,
         offsetOf (query ++ added) = offsetOf query
         /\ limitOf (query ++ added) = limitOf query.
Proof.
  destruct (Sorting_result (V := V) r modelMapping) as (m & Hm & Hq).
  exists m. eexists. split; [rewrite Hm; reflexivity|]. split; [exact Hq|].
  assert (Horders : Forall (fun e : effect V => exists s, e = Order s)
            (map Order
               (map (sortClause modelMapping)
                  (List.filter (sortAccepted modelMapping)
                     (sortTokens (Get (URL_Query r) "sort")))))).
  { apply Forall_forall. intros e He.
    apply list_elem_of_fmap in He as (s & -> & _). eauto. }
  split; [exact Horders|]. intros query. split.
  - apply offsetOf_untouched. eapply Forall_impl; [exact Horders|].
    intros e [s ->] n. discriminate.
  - apply limitOf_untouched. eapply Forall_impl; [exact Horders|].
    intros e [s ->] n. discriminate.
Qed.

(** X8.  A [sort] parameter made of separators only (or empty, or absent)
    is no sorting at all: no error, and a modifier that leaves the query
    as it is. *)
Theorem Sorting_only_separators (r : Request) (modelMapping : M) :
  (forall val, val ∈ strings.Split (Get (URL_Query r) "sort") "," -> val = "") ->
  exists m : Query V -> outcome V,
    SortingFromRequest r modelMapping = (Some m, None)
    /\ forall query, m query = Returns query.
Proof.
  intros Hall.
  assert (Hnone : sortTokens (Get (URL_Query r) "sort") = []).
  { apply filter_none. intros val Hval. rewrite (Hall val Hval). reflexivity. }
  destruct (Sorting_result (V := V) r modelMapping) as (m & Hm & Hq).
  rewrite Hnone in Hm, Hq. simpl in Hm, Hq.
  exists m. split; [exact Hm|]. intros query. rewrite Hq, app_nil_r. reflexivity.
Qed.

(** X9.  Nothing of the request reaches the query unmapped: every clause
    the sorting modifier appends is a column the mapper returned as valid
    for a non-empty token of the [sort] parameter, followed by [" ASC"] or
    [" DESC"]. *)
Theorem Sorting_clauses_are_mapped (r : Request) (modelMapping : M) :
  exists (m : Query V -> outcome V) (added : list (effect V)),
    (SortingFromRequest r modelMapping).1 = Some m
    /\ (forall query, m query = Returns (query ++ added))
    /\ forall e, e ∈ added ->
         exists val key,
           val ∈ strings.Split (Get (URL_Query r) "sort") ","
           /\ val <> ""
           /\ Map modelMapping (strings.TrimPrefix val "-") = (key, true)
           /\ (e = Order (key +:+ " ASC") \/ e = Order (key +:+ " DESC")).
Proof.
  destruct (Sorting_result (V := V) r modelMapping) as (m & Hm & Hq).
  exists m. eexists. split; [rewrite Hm; reflexivity|]. split; [exact Hq|].
  intros e He.
  apply list_elem_of_fmap in He as (s & -> & Hs).
  apply list_elem_of_fmap in Hs as (val & -> & Hval).
  apply list_elem_of_In, List.filter_In in Hval as [Hval Hacc].
  apply list_elem_of_In, elem_of_sortTokens in Hval as [Hin Hne].
  unfold sortAccepted, sortName in Hacc. unfold sortClause, sortName, sortDirection.
  destruct (Map modelMapping (strings.TrimPrefix val "-")) as [key isValid] eqn:HM.
  simpl in Hacc. subst isValid.
  exists val, key. repeat split; try assumption. simpl.
  destruct (strings.HasPrefix val "-"); auto.
Qed.

End SortingExtras.

(** X10.  With a [MapMapper], sorting succeeds exactly when every non-empty
    token, without its leading [-], is a key of the table. *)
Theorem Sorting_MapMapper_error_iff {V : Type} (r : Request) (tbl : gmap string string) :
  (SortingFromRequest (V := V) r (NewMapMapper tbl)).2 = None
  <-> forall val, val ∈ strings.Split (Get (URL_Query r) "sort") "," -> val <> "" ->
                  is_Some (tbl !! strings.TrimPrefix val "-").
Proof.
  destruct (Sorting_result (V := V) r (NewMapMapper tbl)) as (m & Hm & _).
  rewrite Hm. simpl.
  set (rejected := List.filter (fun val => negb (sortAccepted (NewMapMapper tbl) val))
                     (sortTokens (Get (URL_Query r) "sort"))).
  assert (Hiff : rejected = [] <->
                 forall val, val ∈ strings.Split (Get (URL_Query r) "sort") "," ->
                             val <> "" -> is_Some (tbl !! strings.TrimPrefix val "-")).
  { unfold rejected. rewrite filter_none. split.
    - intros Hall val Hin Hne. apply MapMapper_accepts.
      apply negb_false_iff, Hall, elem_of_sortTokens. auto.
    - intros Hall val Hval. apply elem_of_sortTokens in Hval as [Hin Hne].
      apply negb_false_iff, MapMapper_accepts. auto. }
  rewrite <- Hiff. destruct rejected as [|val rest]; simpl.
  - split; reflexivity.
  - split; discriminate.
Qed.

(** [?sort=,,] sorts nothing. *)
Lemma Sorting_only_separators_example :
  exists m : Query string -> outcome string,
    SortingFromRequest sortOnlyCommas exampleMapper = (Some m, None)
    /\ forall query, m query = Returns query.
Proof.
  apply (Sorting_only_separators (V := string) sortOnlyCommas exampleMapper).
  intros val Hval. vm_compute in Hval.
  repeat (apply elem_of_cons in Hval as [-> | Hval]; [reflexivity|]).
  inversion Hval.
Defined.

(** ** The bracket notation of filter parameters *)

Lemma append_assoc (a b c : string) : (a +:+ b) +:+ c = a +:+ (b +:+ c).
Proof.
  induction a as [|x a IH]; [reflexivity|].
  rewrite !append_cons, IH. reflexivity.
Qed.

Lemma HasPrefix_append (p s : string) : strings.HasPrefix (p +:+ s) p = true.
Proof.
  induction p as [|c p IH]; [rewrite append_nil_l; destruct s; reflexivity|].
  rewrite append_cons. simpl. rewrite Ascii.eqb_refl. exact IH.
Qed.

Lemma drop_append (p s : string) : strings.drop (String.length p) (p +:+ s) = s.
Proof.
  induction p as [|c p IH]; [reflexivity|].
  rewrite append_cons. simpl. exact IH.
Qed.

Lemma take_append (s t : string) : strings.take (String.length s) (s +:+ t) = s.
Proof.
  induction s as [|c s IH]; [destruct t; reflexivity|].
  rewrite append_cons. simpl. rewrite IH. reflexivity.
Qed.

Lemma take_drop (n : nat) (s : string) : strings.take n s +:+ strings.drop n s = s.
Proof.
  revert s. induction n as [|n IH]; intros [|c s]; try reflexivity.
  simpl. rewrite append_cons, IH. reflexivity.
Qed.

Lemma TrimPrefix_append (p s : string) : strings.TrimPrefix (p +:+ s) p = s.
Proof. unfold strings.TrimPrefix. rewrite HasPrefix_append. apply drop_append. Qed.

Lemma HasSuffix_append (s t : string) : strings.HasSuffix (s +:+ t) t = true.
Proof.
  unfold strings.HasSuffix. rewrite length_append.
  replace (String.length s + String.length t - String.length t)%nat
    with (String.length s) by lia.
  rewrite drop_append, String.eqb_refl, andb_true_r.
  apply Nat.leb_le. lia.
Qed.

Lemma TrimSuffix_append (s t : string) : strings.TrimSuffix (s +:+ t) t = s.
Proof.
  unfold strings.TrimSuffix. rewrite HasSuffix_append, length_append.
  replace (String.length s + String.length t - String.length t)%nat
    with (String.length s) by lia.
  apply take_append.
Qed.

Lemma HasPrefix_inv (s p : string) :
  strings.HasPrefix s p = true -> s = p +:+ strings.drop (String.length p) s.
Proof.
  revert s. induction p as [|c p IH]; intros s H; [reflexivity|].
  destruct s as [|d s]; [discriminate H|]. simpl in H.
  destruct (Ascii.eqb d c) eqn:Hdc; [|discriminate H].
  apply Ascii.eqb_eq in Hdc. subst d.
  rewrite append_cons. simpl. f_equal. apply IH. exact H.
Qed.

Lemma HasSuffix_inv (s t : string) :
  strings.HasSuffix s t = true ->
  s = strings.take (String.length s - String.length t) s +:+ t.
Proof.
  unfold strings.HasSuffix. intros H. apply andb_true_iff in H as [_ H].
  apply String.eqb_eq in H.
  pose proof (take_drop (String.length s - String.length t) s) as Htd.
  rewrite H in Htd. symmetry. exact Htd.
Qed.

Lemma lastByte_inv (s : string) (c : ascii) :
  lastByte s = Some c -> exists s', s = s' +:+ String c "".
Proof.
  induction s as [|d s IH]; [discriminate|]. simpl.
  destruct s as [|d' s].
  - intros [= ->]. exists "". reflexivity.
  - intros H. destruct (IH H) as [s' Hs']. exists (String d s').
    rewrite append_cons, <- Hs'. reflexivity.
Qed.

Section FilterKeyExtras.

Context {M : Type} `{!ColumnMapper M}.

(** X11.  The parameter [filter[<field>]] is a filter parameter whatever
    [<field>] is (empty, or with brackets of its own), and the key taken
    from it is the column the mapper gives for exactly [<field>], or
    [<field>] itself when the mapper refuses it. *)
Theorem getFilterKey_brackets (field : string) (modelMapping : M) :
  isFilterParam ("filter[" +:+ field +:+ "]") = true
  /\ getFilterKey ("filter[" +:+ field +:+ "]") modelMapping
     = (if (Map modelMapping field).2 then (Map modelMapping field).1 else field,
        (Map modelMapping field).2).
Proof.
  split.
  - unfold isFilterParam. rewrite HasPrefix_append.
    rewrite <- (append_assoc "filter[" field "]"), HasSuffix_append. reflexivity.
  - unfold getFilterKey. rewrite TrimPrefix_append, TrimSuffix_append.
    destruct (Map modelMapping field) as [mapped [|]]; reflexivity.
Qed.

(** X12.  Only names of the form [filter[<field>]] are filter parameters. *)
Theorem isFilterParam_shape (queryName : string) :
  strings.HasPrefix queryName "filter[" && strings.HasSuffix queryName "]" = true ->
  exists field, queryName = "filter[" +:+ field +:+ "]".
Proof.
  intros H. apply andb_true_iff in H as [Hp Hs].
  apply HasPrefix_inv in Hp. apply HasSuffix_inv in Hs.
  set (rest := strings.drop (String.length "filter[") queryName) in Hp.
  assert (Hlast : lastByte queryName = Some "]"%char).
  { rewrite Hs. rewrite lastByte_append by discriminate. reflexivity. }
  destruct rest as [|c rest'] eqn:Hrest.
  - rewrite Hp in Hlast. discriminate Hlast.
  - rewrite Hp, lastByte_append in Hlast by discriminate.
    apply lastByte_inv in Hlast as [field Hfield].
    exists field. rewrite Hp, Hfield. reflexivity.
Qed.

End FilterKeyExtras.

(** [filter[color]] is a filter parameter; [filter[] and [filter] are not. *)
Lemma isFilterParam_shape_example :
  (exists field, "filter[color]" = "filter[" +:+ field +:+ "]")
  /\ strings.HasPrefix "filter[" "filter[" && strings.HasSuffix "filter[" "]" = false
  /\ strings.HasPrefix "filter]" "filter[" && strings.HasSuffix "filter]" "]" = false.
Proof.
  split; [|split; reflexivity].
  apply (isFilterParam_shape "filter[color]"). reflexivity.
Defined.

(** ** The values of a filter parameter *)

Lemma Split_not_nil (s : string) (sep : ascii) : strings.Split s sep <> [].
Proof.
  destruct s as [|c s]; simpl; [discriminate|].
  destruct (Ascii.eqb c sep); [discriminate|].
  destruct (strings.Split s sep); discriminate.
Qed.

(** Splitting two strings joined by the separator gives the tokens of
    both. *)
Lemma Split_append_sep (a b : string) (sep : ascii) :
  strings.Split (a +:+ String sep b) sep = strings.Split a sep ++ strings.Split b sep.
Proof.
  induction a as [|c a IH].
  - rewrite append_nil_l. simpl. rewrite Ascii.eqb_refl. reflexivity.
  - rewrite append_cons. simpl. rewrite IH.
    destruct (Ascii.eqb c sep); [reflexivity|].
    destruct (strings.Split a sep) as [|w ws] eqn:Ha; [|reflexivity].
    destruct (Split_not_nil a sep Ha).
Qed.

Lemma Split_Join (elems : list string) :
  elems <> [] -> strings.Split (strings.Join elems ",") "," = filterTokens elems.
Proof.
  induction elems as [|e elems IH]; [contradiction|]. intros _.
  destruct elems as [|e' elems].
  - simpl. rewrite app_nil_r. reflexivity.
  - change (strings.Join (e :: e' :: elems) ",")
      with (e +:+ String "," (strings.Join (e' :: elems) ",")).
    rewrite Split_append_sep, IH by discriminate. reflexivity.
Qed.

Lemma filterTokens_length (queryValues : list string) :
  (length queryValues <= length (filterTokens queryValues))%nat.
Proof.
  induction queryValues as [|value rest IH]; [reflexivity|].
  unfold filterTokens in *. simpl. rewrite length_app.
  pose proof (Split_not_nil value ",") as Hne.
  destruct (strings.Split value ","); [contradiction|]. simpl. lia.
Qed.

Section FilterValuesExtras.

Context {V S : Type} `{!ValueSanitizer S V}.

Lemma sanitizeSeparated_app (fieldName : string) (l1 l2 : list string)
    (sanitizer : S) (acc : list V) :
  sanitizeSeparated fieldName (l1 ++ l2) sanitizer acc
  = match sanitizeSeparated fieldName l1 sanitizer acc with
    | Some acc' => sanitizeSeparated fieldName l2 sanitizer acc'
    | None => None
    end.
Proof.
  revert acc. induction l1 as [|t l1 IH]; intros acc; simpl; [reflexivity|].
  destruct (SanitizeValue sanitizer fieldName t); [apply IH | reflexivity].
Qed.

(** The two loops of [getFilterValues] are one pass over the tokens. *)
Lemma sanitizeValues_tokens (fieldName : string) (queryValues : list string)
    (sanitizer : S) (acc : list V) :
  sanitizeValues fieldName queryValues sanitizer acc
  = sanitizeSeparated fieldName (filterTokens queryValues) sanitizer acc.
Proof.
  revert acc. induction queryValues as [|value rest IH]; intros acc; [reflexivity|].
  unfold filterTokens in *. simpl. rewrite sanitizeSeparated_app.
  destruct (sanitizeSeparated fieldName (strings.Split value ",") sanitizer acc);
    [apply IH | reflexivity].
Qed.

Lemma sanitizeSeparated_Some (fieldName : string) (tokens : list string)
    (sanitizer : S) (acc vs : list V) :
  sanitizeSeparated fieldName tokens sanitizer acc = Some vs
  <-> exists new, vs = acc ++ new
        /\ Forall2 (fun t v => SanitizeValue sanitizer fieldName t = Ok v) tokens new.
Proof.
  revert acc. induction tokens as [|t tokens IH]; intros acc; simpl.
  - split.
    + intros [= <-]. exists []. rewrite app_nil_r. split; [reflexivity | constructor].
    + intros (new & -> & Hnew). inversion Hnew. rewrite app_nil_r. reflexivity.
  - destruct (SanitizeValue sanitizer fieldName t) as [v|e] eqn:Ht.
    + rewrite IH. split.
      * intros (new & -> & Hnew). exists (v :: new).
        rewrite <- app_assoc. split; [reflexivity|]. constructor; assumption.
      * intros (new & -> & Hnew). inversion Hnew as [|t' v' ts' new' Hv Hrest]; subst.
        rewrite Ht in Hv. injection Hv as <-.
        exists new'. rewrite <- app_assoc. split; [reflexivity | exact Hrest].
    + split; [discriminate|].
      intros (new & _ & Hnew). inversion Hnew as [|t' v' ts' new' Hv Hrest]; subst.
      rewrite Ht in Hv. discriminate Hv.
Qed.

Lemma sanitizeSeparated_None (fieldName : string) (tokens : list string)
    (sanitizer : S) (acc : list V) :
  sanitizeSeparated fieldName tokens sanitizer acc = None
  <-> exists t e, t ∈ tokens /\ SanitizeValue sanitizer fieldName t = Err e.
Proof.
  revert acc. induction tokens as [|t tokens IH]; intros acc; simpl.
  - split; [discriminate|]. intros (t & e & Hin & _). inversion Hin.
  - destruct (SanitizeValue sanitizer fieldName t) as [v|e] eqn:Ht.
    + rewrite IH. split.
      * intros (t' & e & Hin & He). exists t', e. split; [apply elem_of_cons; auto | exact He].
      * intros (t' & e & Hin & He). apply elem_of_cons in Hin as [-> | Hin].
        -- rewrite Ht in He. discriminate He.
        -- exists t', e. auto.
    + split; [|reflexivity]. intros _. exists t, e. split; [apply elem_of_cons; auto | exact Ht].
Qed.

(** X13.  [getFilterValues] is all or nothing: it succeeds exactly when the
    sanitizer accepts every token of every value, and then returns the
    sanitized tokens in their order; it fails, with no value at all,
    exactly when the sanitizer refuses some token. *)
Theorem getFilterValues_all_or_nothing (fieldName : string)
    (queryValues : list string) (sanitizer : S) :
  (forall vs,
     getFilterValues fieldName queryValues sanitizer = (vs, true)
     <-> Forall2 (fun t v => SanitizeValue sanitizer fieldName t = Ok v)
           (filterTokens queryValues) vs)
  /\ (getFilterValues (V := V) fieldName queryValues sanitizer = ([], false)
      <-> exists t e, t ∈ filterTokens queryValues
                      /\ SanitizeValue (V := V) sanitizer fieldName t = Err e).
Proof.
  unfold getFilterValues. rewrite sanitizeValues_tokens.
  destruct (sanitizeSeparated fieldName (filterTokens queryValues) sanitizer [])
    as [filterValues|] eqn:Hloop.
  - apply sanitizeSeparated_Some in Hloop as (new & -> & Hnew). simpl. split.
    + intros vs. split.
      * intros [= <-]. exact Hnew.
      * intros Hvs. f_equal.
        clear -Hnew Hvs. revert vs Hvs.
        induction Hnew as [|t v ts new Hv _ IH]; intros vs Hvs;
          inversion Hvs as [|t' v' ts' vs' Hv' Hrest]; subst; [reflexivity|].
        rewrite Hv in Hv'. injection Hv' as <-. f_equal. apply IH. exact Hrest.
    + split; [discriminate|]. intros (t & e & Hin & He). exfalso.
      clear -Hnew Hin He. induction Hnew as [|t' v ts new Hv _ IH]; [inversion Hin|].
      apply elem_of_cons in Hin as [-> | Hin]; [rewrite Hv in He; discriminate He | auto].
  - split.
    + intros vs. split; [discriminate|]. intros Hvs. exfalso.
      assert (Hsome : sanitizeSeparated fieldName (filterTokens queryValues) sanitizer []
                      = Some vs)
        by (apply sanitizeSeparated_Some; exists vs; auto).
      rewrite Hloop in Hsome. discriminate Hsome.
    + split; [|reflexivity]. intros _. apply (sanitizeSeparated_None _ _ _ []). exact Hloop.
Qed.

(** X14.  A parameter that is kept has at least one value per value it
    carried in the request: an empty value is a token of its own, handed to
    the sanitizer like any other. *)
Theorem getFilterValues_value_per_token (fieldName : string)
    (queryValues : list string) (sanitizer : S) (vs : list V) :
  getFilterValues fieldName queryValues sanitizer = (vs, true) ->
  (length queryValues <= length vs)%nat
  /\ length vs = length (filterTokens queryValues).
Proof.
  unfold getFilterValues. rewrite sanitizeValues_tokens.
  destruct (sanitizeSeparated fieldName (filterTokens queryValues) sanitizer [])
    as [filterValues|] eqn:Hloop; [|discriminate].
  intros [= <-].
  apply sanitizeSeparated_Some in Hloop as (new & -> & Hnew). simpl.
  apply Forall2_length in Hnew. rewrite <- Hnew.
  split; [apply filterTokens_length | reflexivity].
Qed.

(** X15.  Repeating a filter parameter is the same as giving it once with
    the values joined by commas. *)
Theorem getFilterValues_repeated_parameter (fieldName : string)
    (queryValues : list string) (sanitizer : S) :
  queryValues <> [] ->
  getFilterValues (V := V) fieldName queryValues sanitizer
  = getFilterValues fieldName [strings.Join queryValues ","] sanitizer.
Proof.
  intros Hne. unfold getFilterValues. rewrite !sanitizeValues_tokens.
  replace (filterTokens [strings.Join queryValues ","]) with (filterTokens queryValues);
    [reflexivity|].
  unfold filterTokens at 2. simpl. rewrite app_nil_r. symmetry.
  apply Split_Join. exact Hne.
Qed.

End FilterValuesExtras.

(** The two values of [filter[color]=red&filter[color]=blue] are two
    tokens, and both are kept. *)
Lemma getFilterValues_value_per_token_example :
  (length ["red"; "blue"] <= length ["red"; "blue"])%nat
  /\ length ["red"; "blue"] = length (filterTokens ["red"; "blue"]).
Proof.
  apply (getFilterValues_value_per_token "col_color" ["red"; "blue"] nonEmpty).
  reflexivity.
Defined.

(** [filter[x]=red&filter[x]=blue] is [filter[x]=red,blue]. *)
Lemma getFilterValues_repeated_parameter_example :
  getFilterValues "col_color" ["red"; "blue"] nonEmpty
  = getFilterValues "col_color" ["red,blue"] nonEmpty.
Proof.
  apply (getFilterValues_repeated_parameter "col_color" ["red"; "blue"] nonEmpty).
  discriminate.
Defined.

(** ** Filtering: errors, and what reaches the query *)

Lemma flat_map_nil {A B} (f : A -> list B) (l : list A) :
  flat_map f l = [] <-> forall x, x ∈ l -> f x = [].
Proof.
  induction l as [|x l IH]; simpl.
  - split; [intros _ y Hy; inversion Hy | reflexivity].
  - split.
    + intros H. apply app_eq_nil in H as [Hx Hl]. intros y Hy.
      apply elem_of_cons in Hy as [-> | Hy]; [exact Hx | apply IH; assumption].
    + intros Hall. rewrite (Hall x) by (apply elem_of_cons; auto). simpl.
      apply IH. intros y Hy. apply Hall, elem_of_cons. auto.
Qed.

Lemma filterEffects_kinds {V} (entry : string * list V) (e : effect V) :
  e ∈ filterEffects entry ->
  (exists v, entry.2 = [v]
             /\ (e = Where (entry.1 +:+ " = ?") (Value v)
                 \/ e = Printf "%s = %s" entry.1 v))
  \/ ((2 <= length entry.2)%nat /\ e = Where (entry.1 +:+ " IN (?)") (In entry.2)).
Proof.
  destruct entry as [name [|v [|v' vs]]]; unfold filterEffects; simpl; intros He.
  - inversion He.
  - left. exists v. split; [reflexivity|].
    apply elem_of_cons in He as [-> | He]; [auto|].
    apply elem_of_cons in He as [-> | He]; [auto | inversion He].
  - right. split; [lia|].
    apply elem_of_cons in He as [-> | He]; [reflexivity | inversion He].
Qed.

Section FilterExtras.

Context {V M S : Type} `{!ColumnMapper M} `{!ValueSanitizer S V}.

Variable rangeOrder : forall A : Type, gmap string A -> list (string * A).

Hypothesis rangeOrder_perm :
  forall (A : Type) (m : gmap string A), rangeOrder A m ≡ₚ map_to_list m.

Lemma getFilterValues_sanitized (fieldName : string) (queryValues : list string)
    (sanitizer : S) (vs : list V) :
  getFilterValues fieldName queryValues sanitizer = (vs, true) ->
  Forall2 (fun t v => SanitizeValue sanitizer fieldName t = Ok v)
    (filterTokens queryValues) vs.
Proof.
  unfold getFilterValues. rewrite sanitizeValues_tokens.
  destruct (sanitizeSeparated fieldName (filterTokens queryValues) sanitizer [])
    as [filterValues|] eqn:Hloop; [|discriminate].
  intros [= <-]. apply sanitizeSeparated_Some in Hloop as (new & -> & Hnew).
  exact Hnew.
Qed.

(** The predicates on one column, from the [filter] map. *)
Lemma wheresOn_filter_map (filter : gmap string (list V)) (name : string) :
  wheresOn name (flat_map filterEffects (rangeOrder _ filter))
  = match filter !! name with
    | Some [v] => [Where (name +:+ " = ?") (Value v)]
    | Some (v :: v' :: vs) => [Where (name +:+ " IN (?)") (In (v :: v' :: vs))]
    | Some [] | None => []
    end.
Proof.
  destruct (wheresOn_entries name (rangeOrder _ filter)) as [Hin Hout];
    [apply (rangeOrder_NoDup rangeOrder rangeOrder_perm)|].
  destruct (filter !! name) as [vs|] eqn:Hlook.
  - rewrite (Hin vs)
      by (apply (rangeOrder_lookup rangeOrder rangeOrder_perm); exact Hlook).
    rewrite wheresOn_filterEffects. simpl.
    rewrite bool_decide_eq_true_2 by reflexivity.
    destruct vs as [|v [|v' vs]]; reflexivity.
  - apply Hout, (rangeOrder_absent rangeOrder rangeOrder_perm). exact Hlook.
Qed.

(** X16.  [FilterFromRequest] always returns a modifier, with or without
    an error; the modifier never panics, calls nothing but [Where] (and
    [Printf]), and leaves the offset and the limit of the query as they
    were. *)
Theorem Filter_modifier_always (r : Request) (modelMapping : M) (sanitizer : S) :
  exists (m : Query V -> outcome V) (added : list (effect V)),
    (FilterFromRequest rangeOrder r modelMapping sanitizer).1 = Some m
    /\ (forall query, m query = Returns (query ++ added))
    /\ Forall (fun e => (exists c p, e = Where c p) \/ exists f n v, e = Printf f n v) added
    /\ forall query,
         offsetOf (query ++ added) = offsetOf query
         /\ limitOf (query ++ added) = limitOf query.
Proof.
  destruct (Filter_result rangeOrder r modelMapping sanitizer) as (m & Hm & Hq).
  exists m. eexists. split; [rewrite Hm; reflexivity|]. split; [exact Hq|].
  match goal with |- Forall ?P ?l /\ _ => assert (Hkinds : Forall P l) end.
  { apply Forall_forall. intros e He.
    apply list_elem_of_In, in_flat_map in He as (entry & _ & He).
    apply list_elem_of_In, filterEffects_kinds in He
      as [(v & _ & [-> | ->]) | [_ ->]]; eauto 6. }
  split; [exact Hkinds|]. intros query. split.
  - apply offsetOf_untouched. eapply Forall_impl; [exact Hkinds|].
    intros e [(c & p & ->) | (f & n & v & ->)] k; discriminate.
  - apply limitOf_untouched. eapply Forall_impl; [exact Hkinds|].
    intros e [(c & p & ->) | (f & n & v & ->)] k; discriminate.
Qed.

(** X17.  [FilterFromRequest] returns no error exactly when every filter
    parameter of the request is mapped and has all its values sanitized. *)
Theorem Filter_error_iff (r : Request) (modelMapping : M) (sanitizer : S) :
  (FilterFromRequest (V := V) rangeOrder r modelMapping sanitizer).2 = None
  <-> forall queryName queryValues,
        URL_Query r !! queryName = Some queryValues ->
        strings.HasPrefix queryName "filter[" && strings.HasSuffix queryName "]" = true ->
        exists key vs,
          getFilterKey queryName modelMapping = (key, true)
          /\ getFilterValues (V := V) key queryValues sanitizer = (vs, true).
Proof.
  destruct (Filter_result (V := V) rangeOrder r modelMapping sanitizer) as (m & Hm & _).
  rewrite Hm. simpl. unfold parseFilter. rewrite parse_loop_invalid. simpl.
  set (invalid := flat_map (invalidName (V := V) modelMapping sanitizer)
                    (rangeOrder _ (URL_Query r))).
  assert (Hiff : invalid = [] <->
            forall queryName queryValues,
              URL_Query r !! queryName = Some queryValues ->
              isFilterParam queryName = true ->
              exists key vs,
                getFilterKey queryName modelMapping = (key, true)
                /\ getFilterValues (V := V) key queryValues sanitizer = (vs, true)).
  { unfold invalid. rewrite flat_map_nil. split.
    - intros Hall queryName queryValues Hq Hp.
      apply (rangeOrder_lookup rangeOrder rangeOrder_perm) in Hq.
      specialize (Hall _ Hq). unfold invalidName in Hall. simpl in Hall.
      rewrite Hp in Hall.
      destruct (getFilterKey queryName modelMapping) as [key [|]]; [|discriminate Hall].
      destruct (getFilterValues (V := V) key queryValues sanitizer) as [vs [|]] eqn:Hv;
        [eauto | discriminate Hall].
    - intros Hall [queryName queryValues] Hin. unfold invalidName. simpl.
      destruct (isFilterParam queryName) eqn:Hp; [|reflexivity].
      apply (rangeOrder_lookup rangeOrder rangeOrder_perm) in Hin.
      destruct (Hall _ _ Hin Hp) as (key & vs & -> & ->). reflexivity. }
  unfold isFilterParam in Hiff. rewrite <- Hiff.
  destruct invalid as [|name rest]; simpl.
  - split; reflexivity.
  - split; discriminate.
Qed.

(** X18.  A request without filter parameters is filtered by nothing: no
    error, and a modifier that leaves the query as it is. *)
Theorem Filter_no_filter_params (r : Request) (modelMapping : M) (sanitizer : S) :
  (forall queryName,
     is_Some (URL_Query r !! queryName) ->
     strings.HasPrefix queryName "filter[" && strings.HasSuffix queryName "]" = false) ->
  exists m : Query V -> outcome V,
    FilterFromRequest rangeOrder r modelMapping sanitizer = (Some m, None)
    /\ forall query, m query = Returns query.
Proof.
  intros Hnone.
  destruct (Filter_result (V := V) rangeOrder r modelMapping sanitizer) as (m & Hm & Hq).
  rewrite (parseFilter_no_params rangeOrder rangeOrder_perm) in Hm, Hq by exact Hnone.
  simpl in Hm, Hq. exists m. split; [exact Hm|]. intros query. rewrite Hq.
  assert (Hempty : rangeOrder (list V) ∅ = []).
  { apply Permutation_nil_r. rewrite rangeOrder_perm, map_to_list_empty. reflexivity. }
  rewrite Hempty. simpl. rewrite app_nil_r. reflexivity.
Qed.

(** X19.  Nothing of the request reaches the query unmapped or
    unsanitized: every predicate the filter modifier adds is on a column
    the mapper returned as valid for a filter parameter of the request, and
    its values are what the sanitizer returned for the tokens of that
    parameter, all of them and in their order. *)
Theorem Filter_values_are_sanitized (r : Request) (modelMapping : M) (sanitizer : S) :
  exists (m : Query V -> outcome V) (added : list (effect V)),
    (FilterFromRequest rangeOrder r modelMapping sanitizer).1 = Some m
    /\ (forall query, m query = Returns (query ++ added))
    /\ forall condition param,
         Where condition param ∈ added ->
         exists queryName queryValues key vs,
           URL_Query r !! queryName = Some queryValues
           /\ strings.HasPrefix queryName "filter[" && strings.HasSuffix queryName "]" = true
           /\ getFilterKey queryName modelMapping = (key, true)
           /\ Forall2 (fun t v => SanitizeValue sanitizer key t = Ok v)
                (filterTokens queryValues) vs
           /\ ((condition = key +:+ " = ?" /\ exists v, vs = [v] /\ param = Value v)
               \/ (condition = key +:+ " IN (?)" /\ param = In vs)).
Proof.
  destruct (Filter_result rangeOrder r modelMapping sanitizer) as (m & Hm & Hq).
  exists m. eexists. split; [rewrite Hm; reflexivity|]. split; [exact Hq|].
  intros condition param He.
  apply list_elem_of_In, in_flat_map in He as ([key vs] & Hentry & He).
  apply list_elem_of_In, (rangeOrder_lookup rangeOrder rangeOrder_perm) in Hentry.
  apply parse_loop_sound in Hentry as [Hempty | ([qn qv] & Hin & Hp & Hk & Hv)].
  { simpl in Hempty. rewrite lookup_empty in Hempty. discriminate Hempty. }
  apply (rangeOrder_lookup rangeOrder rangeOrder_perm) in Hin. simpl in Hp, Hk, Hv.
  exists qn, qv, key, vs. split; [exact Hin|]. split; [exact Hp|]. split; [exact Hk|].
  split; [apply getFilterValues_sanitized; exact Hv|].
  apply list_elem_of_In, filterEffects_kinds in He
    as [(v & Hvs & [He | He]) | [_ He]]; simpl in *.
  - injection He as -> ->. left. eauto.
  - discriminate He.
  - injection He as -> ->. right. auto.
Qed.

(** X20.  A filter parameter that is mapped and fully sanitized, and is
    the only filter parameter of the request mapped to its column, gets
    its predicate: an equality for one value, a membership test for more,
    nothing for none. *)
Theorem Filter_single_parameter (r : Request) (modelMapping : M) (sanitizer : S)
    (queryName : string) (queryValues : list string) (key : string) (vs : list V) :
  URL_Query r !! queryName = Some queryValues ->
  strings.HasPrefix queryName "filter[" && strings.HasSuffix queryName "]" = true ->
  getFilterKey queryName modelMapping = (key, true) ->
  getFilterValues key queryValues sanitizer = (vs, true) ->
  (forall other,
     is_Some (URL_Query r !! other) ->
     strings.HasPrefix other "filter[" && strings.HasSuffix other "]" = true ->
     getFilterKey other modelMapping = (key, true) -> other = queryName) ->
  exists (m : Query V -> outcome V) (added : list (effect V)),
    (FilterFromRequest rangeOrder r modelMapping sanitizer).1 = Some m
    /\ (forall query, m query = Returns (query ++ added))
    /\ wheresOn key added
       = match vs with
         | [] => []
         | [v] => [Where (key +:+ " = ?") (Value v)]
         | _ => [Where (key +:+ " IN (?)") (In vs)]
         end.
Proof.
  intros Hq Hp Hk Hv Huniq.
  destruct (Filter_result rangeOrder r modelMapping sanitizer) as (m & Hm & Hadd).
  exists m. eexists. split; [rewrite Hm; reflexivity|]. split; [exact Hadd|].
  rewrite wheresOn_filter_map.
  rewrite (parseFilter_complete rangeOrder rangeOrder_perm r modelMapping sanitizer
             queryName queryValues key vs) by assumption.
  destruct vs as [|v [|v' vs]]; reflexivity.
Qed.

End FilterExtras.

Ltac lookup_cases H :=
  repeat (apply lookup_insert_Some in H as [[<- <-] | [_ H]]);
  try (rewrite lookup_empty in H; discriminate H).

(** [?filter[color]=red] has no invalid filter. *)
Lemma Filter_error_iff_example :
  (FilterFromRequest (V := string) enumOrder filterRed exampleMapper nonEmpty).2 = None.
Proof.
  apply (Filter_error_iff (V := string) enumOrder enumOrder_perm filterRed
           exampleMapper nonEmpty).
  intros queryName queryValues Hq _.
  unfold filterRed, request in Hq. simpl in Hq. lookup_cases Hq.
  exists "col_color", ["red"]. split; vm_compute; reflexivity.
Defined.

(** [?sort=age&page[number]=2&page[size]=10] is not filtered. *)
Lemma Filter_no_filter_params_example :
  exists m : Query string -> outcome string,
    FilterFromRequest enumOrder sortAndPage exampleMapper nonEmpty = (Some m, None)
    /\ forall query, m query = Returns query.
Proof.
  apply (Filter_no_filter_params (V := string) enumOrder enumOrder_perm sortAndPage
           exampleMapper nonEmpty).
  intros queryName [queryValues Hq].
  unfold sortAndPage, request in Hq. simpl in Hq. lookup_cases Hq; reflexivity.
Defined.

(** The predicate of [?filter[color]=red,blue] comes from the mapper and
    the sanitizer. *)
Lemma Filter_values_are_sanitized_example :
  exists (m : Query string -> outcome string) added,
    (FilterFromRequest enumOrder filterRedBlue exampleMapper nonEmpty).1 = Some m
    /\ (forall query, m query = Returns (query ++ added))
    /\ forall condition param,
         Where condition param ∈ added ->
         exists queryName queryValues key vs,
           URL_Query filterRedBlue !! queryName = Some queryValues
           /\ strings.HasPrefix queryName "filter[" && strings.HasSuffix queryName "]" = true
           /\ getFilterKey queryName exampleMapper = (key, true)
           /\ Forall2 (fun t v => SanitizeValue nonEmpty key t = Ok v)
                (filterTokens queryValues) vs
           /\ ((condition = key +:+ " = ?" /\ exists v, vs = [v] /\ param = Value v)
               \/ (condition = key +:+ " IN (?)" /\ param = In vs)).
Proof.
  exact (Filter_values_are_sanitized (V := string) enumOrder enumOrder_perm
           filterRedBlue exampleMapper nonEmpty).
Defined.

(** [?filter[color]=red,blue]: one parameter, one membership test. *)
Lemma Filter_single_parameter_example :
  exists (m : Query string -> outcome string) added,
    (FilterFromRequest enumOrder filterRedBlue exampleMapper nonEmpty).1 = Some m
    /\ (forall query, m query = Returns (query ++ added))
    /\ wheresOn "col_color" added = [Where "col_color IN (?)" (In ["red"; "blue"])].
Proof.
  apply (Filter_single_parameter (V := string) enumOrder enumOrder_perm filterRedBlue
           exampleMapper nonEmpty "filter[color]" ["red,blue"] "col_color" ["red"; "blue"]).
  - vm_compute. reflexivity.
  - reflexivity.
  - vm_compute. reflexivity.
  - vm_compute. reflexivity.
  - intros other [values Hq] _ _.
    unfold filterRedBlue, request in Hq. simpl in Hq. lookup_cases Hq. reflexivity.
Defined.

(** ** The composer: which error, which modifier *)

Section ComposerExtras.

Context {V M S : Type} `{!ColumnMapper M} `{!ValueSanitizer S V}.

Variable cfg : config.
Variable rangeOrder : forall A : Type, gmap string A -> list (string * A).

(** The composer, by the results of the three parsers. *)
Lemma Composer_unfold (r : Request) (modelMapping : M) (sanitizer : S)
    (mS mF : Query V -> outcome V) (eS eP eF : option error)
    (paginationOption : QueryOption V) :
  SortingFromRequest r modelMapping = (Some mS, eS) ->
  PaginationFromRequest cfg r = (paginationOption, eP) ->
  (paginationOption = None <-> eP <> None) ->
  FilterFromRequest rangeOrder r modelMapping sanitizer = (Some mF, eF) ->
  FilterPagingSortingFromRequest cfg rangeOrder r modelMapping sanitizer
  = match eS with
    | Some e => (None, Some e)
    | None =>
        match eF with
        | Some e => (None, Some e)
        | None =>
            (Some (fun query =>
                     andThen (andThen (mS query) (call (Some mF)))
                             (call paginationOption)),
             None)
        end
    end.
Proof.
  intros HS HP Hxor HF. unfold FilterPagingSortingFromRequest.
  rewrite HS. destruct eS as [e|]; [reflexivity|]. simpl.
  rewrite HP.
  assert (Hguard : bothSet eP paginationOption = false).
  { destruct eP as [e|], paginationOption as [m|]; try reflexivity.
    exfalso. assert (Some m = None) as Hm by (apply Hxor; discriminate).
    discriminate Hm. }
  rewrite Hguard, HF. destruct eF as [e|]; reflexivity.
Qed.

Lemma Pagination_xor (r : Request) :
  exists (paginationOption : QueryOption V) eP,
    PaginationFromRequest cfg r = (paginationOption, eP)
    /\ (paginationOption = None <-> eP <> None)
    /\ (eP = None ->
        exists paged, forall query, call paginationOption query = Returns (query ++ paged)).
Proof.
  destruct (Pagination_result (V := V) cfg r)
    as [Hnop | [[e He] | (number & size & m & _ & _ & _ & Hm & Hq)]].
  - exists (Some nop), None. split; [exact Hnop|]. split.
    + split; [discriminate | intros H; destruct H; reflexivity].
    + intros _. exists []. intros query. rewrite app_nil_r. reflexivity.
  - exists None, (Some e). split; [exact He|]. split.
    + split; [discriminate | reflexivity].
    + discriminate.
  - exists (Some m), None. split; [exact Hm|]. split.
    + split; [discriminate | intros H; destruct H; reflexivity].
    + intros _. eexists. exact Hq.
Qed.

(** X21.  The composer returns a modifier or an error, never both and
    never neither (the modifiers that the sorting and the filter parser
    return beside their errors are dropped). *)
Theorem Composer_modifier_or_error (r : Request) (modelMapping : M) (sanitizer : S) :
  (exists m : Query V -> outcome V,
     FilterPagingSortingFromRequest cfg rangeOrder r modelMapping sanitizer
     = (Some m, None))
  \/ (exists e,
        FilterPagingSortingFromRequest (V := V) cfg rangeOrder r modelMapping sanitizer
        = (None, Some e)).
Proof.
  destruct (Sorting_result (V := V) r modelMapping) as (mS & HS & _).
  destruct (Filter_result (V := V) rangeOrder r modelMapping sanitizer) as (mF & HF & _).
  destruct (Pagination_xor r) as (po & eP & HP & Hxor & _).
  rewrite (Composer_unfold r modelMapping sanitizer _ _ _ _ _ _ HS HP Hxor HF).
  destruct (negb (length _ =? 0)%nat); [right; eauto|].
  destruct (negb (length _ =? 0)%nat); [right; eauto | left; eauto].
Qed.

(** X22.  The error of the composer is the error of the sorting parser
    when there is one, and otherwise the error of the filter parser, nil
    or not.  The error of the pagination parser is never returned. *)
Theorem Composer_error_source (r : Request) (modelMapping : M) (sanitizer : S) :
  (FilterPagingSortingFromRequest (V := V) cfg rangeOrder r modelMapping sanitizer).2
  = match (SortingFromRequest (V := V) r modelMapping).2 with
    | Some e => Some e
    | None => (FilterFromRequest (V := V) rangeOrder r modelMapping sanitizer).2
    end.
Proof.
  destruct (Sorting_result (V := V) r modelMapping) as (mS & HS & _).
  destruct (Filter_result (V := V) rangeOrder r modelMapping sanitizer) as (mF & HF & _).
  destruct (Pagination_xor r) as (po & eP & HP & Hxor & _).
  rewrite (Composer_unfold r modelMapping sanitizer _ _ _ _ _ _ HS HP Hxor HF).
  rewrite HS, HF. simpl.
  destruct (negb (length _ =? 0)%nat); [reflexivity|].
  destruct (negb (length _ =? 0)%nat); reflexivity.
Qed.

(** X23.  A modifier the composer returns applies the sorting, then the
    filter, then the pagination when the pagination parser had succeeded;
    when it had failed, the modifier panics on every query, after it
    applied the sorting and the filter to it. *)
Theorem Composer_modifier_outcome (r : Request) (modelMapping : M) (sanitizer : S)
    (m : Query V -> outcome V) :
  FilterPagingSortingFromRequest cfg rangeOrder r modelMapping sanitizer = (Some m, None) ->
  exists sorted filtered : list (effect V),
    (forall query,
       call (SortingFromRequest r modelMapping).1 query = Returns (query ++ sorted))
    /\ (forall query,
          call (FilterFromRequest rangeOrder r modelMapping sanitizer).1 query
          = Returns (query ++ filtered))
    /\ (((PaginationFromRequest (V := V) cfg r).2 = None
         /\ exists paged,
              (forall query,
                 call (PaginationFromRequest cfg r).1 query = Returns (query ++ paged))
              /\ forall query, m query = Returns (query ++ sorted ++ filtered ++ paged))
        \/ ((exists e, PaginationFromRequest (V := V) cfg r = (None, Some e))
            /\ forall query, m query = Panics (query ++ sorted ++ filtered))).
Proof.
  intros Hm.
  destruct (Sorting_result (V := V) r modelMapping) as (mS & HS & HqS).
  destruct (Filter_result (V := V) rangeOrder r modelMapping sanitizer) as (mF & HF & HqF).
  destruct (Pagination_xor r) as (po & eP & HP & Hxor & Hpaged).
  rewrite (Composer_unfold r modelMapping sanitizer _ _ _ _ _ _ HS HP Hxor HF) in Hm.
  rewrite HS, HF, HP. simpl.
  destruct (negb (length _ =? 0)%nat); [discriminate Hm|].
  destruct (negb (length _ =? 0)%nat); [discriminate Hm|].
  injection Hm as <-.
  eexists. eexists. split; [exact HqS|]. split; [exact HqF|].
  destruct eP as [e|].
  - right. assert (po = None) as -> by (apply Hxor; discriminate).
    split; [eauto|]. intros query. rewrite HqS. simpl. rewrite HqF. simpl.
    rewrite <- app_assoc. reflexivity.
  - left. split; [reflexivity|].
    destruct (Hpaged eq_refl) as [paged Hq]. exists paged. split; [exact Hq|].
    intros query. rewrite HqS. simpl. rewrite HqF. simpl andThen.
    rewrite Hq, <- !app_assoc. reflexivity.
Qed.

End ComposerExtras.

(** [?page[number]=1&page[size]=abc&filter[color]=red]: the filter is
    applied, then the modifier panics. *)
Lemma Composer_modifier_outcome_example :
  exists m : Query string -> outcome string,
    FilterPagingSortingFromRequest defaultConfig enumOrder
      badPageSizeFilterRed exampleMapper nonEmpty
    = (Some m, None)
    /\ m [] = Panics [Where "col_color = ?" (Value "red");
                      Printf "%s = %s" "col_color" "red"].
Proof.
  edestruct (Composer_modifier_outcome (V := string) defaultConfig enumOrder
               badPageSizeFilterRed exampleMapper nonEmpty)
    as (sorted & filtered & HS & HF & [[Hok _] | [_ Hpanic]]).
  - vm_compute. reflexivity.
  - vm_compute in Hok. discriminate Hok.
  - pose proof (HS []) as HS0. vm_compute in HS0. injection HS0 as <-.
    pose proof (HF []) as HF0. vm_compute in HF0. injection HF0 as <-.
    eexists. split; [vm_compute; reflexivity|]. exact (Hpanic []).
Defined.

(** ** Filter keys over a [MapMapper] *)

(** X24.  With a [MapMapper], the key of [filter[<field>]] is the table's
    entry for [<field>]; a field that is not in the table is refused and
    reported under its own name. *)
Theorem getFilterKey_MapMapper (field : string) (tbl : gmap string string) :
  getFilterKey ("filter[" +:+ field +:+ "]") (NewMapMapper tbl)
  = match tbl !! field with
    | Some column => (column, true)
    | None => (field, false)
    end.
Proof.
  unfold getFilterKey. rewrite TrimPrefix_append, TrimSuffix_append.
  unfold Map, MapMapper_Map, NewMapMapper. simpl.
  destruct (tbl !! field); reflexivity.
Qed.

(** ** Filtering: the predicate of each parameter *)

Section FilterParameterClaims.

Context {V M S : Type} `{!ColumnMapper M} `{!ValueSanitizer S V}.

Variable rangeOrder : forall A : Type, gmap string A -> list (string * A).

Hypothesis rangeOrder_perm :
  forall (A : Type) (m : gmap string A), rangeOrder A m ≡ₚ map_to_list m.


End FilterParameterClaims.


